(** * The rate-limit-aware, cursor-paginated fetch core of the Slack exporter

    A shallow embedding of [src/exporter_improved.py], lines 13-99:
    [_get_data], [get_data], [get_at_cursor] and [paginated_get], together
    with the fragments of Python's and [requests]' semantics these four
    functions rely on (subscripting, [in], [list.extend], [len], [int],
    [str.strip], [time.sleep], [sys.exit], [try]/[except KeyError]).

    Effects are threaded through a state-and-outcome monad over a [World]
    that holds the dict objects the program mutates, the responses the
    remote server will give, and a chronological trace of every HTTP
    exchange and every sleep. *)

From Stdlib Require Import ZArith List String Ascii Lia Bool DecimalFacts.
From stdpp Require Import base option list strings gmap.

Set Warnings "-register-all".

Open Scope string_scope.
Open Scope list_scope.
Open Scope Z_scope.

(** * Part I: the model *)

(** ** Python values *)

(** The values [r.json()] can produce and query parameters can hold.  A
    decoded JSON object is a Python [dict], which iterates in document
    order: it is kept as an association list.  [VFloat m e] stands for the
    float [m * 10^e]; no function below looks inside a number. *)
Inductive value : Type :=
  | VNone
  | VBool (b : bool)
  | VInt (n : Z)
  | VFloat (m e : Z)
  | VStr (s : string)
  | VList (items : list value)
  | VDict (entries : list (string * value)).

(** [x is None] and [x is False]. *)
Definition is_None (v : value) : bool :=
  match v with VNone => true | _ => false end.

Definition is_False (v : value) : bool :=
  match v with VBool false => true | _ => false end.

(** The exceptions the fetch core can let escape. *)
Inductive exn : Type :=
  | KeyError
  | ValueError
  | TypeError
  | AttributeError
  | JSONDecodeError
  | ConnectionError
  | OverflowError.

(** ** Strings *)

(** A [str] is kept as a [string] whose characters are the code points
    below 256. *)

(** [str.isspace] on one character, for code points below 256. *)
Definition py_isspace (c : ascii) : bool :=
  let n := N_of_ascii c in
  (((9 <=? n) && (n <=? 13)) || ((28 <=? n) && (n <=? 32))
   || (n =? 133) || (n =? 160))%N.

(** [s == ""] *)
Definition str_is_empty (s : string) : bool :=
  match s with EmptyString => true | String _ _ => false end.

(** [s.lstrip()] and [s.rstrip()] *)
Fixpoint lstrip (s : string) : string :=
  match s with
  | EmptyString => EmptyString
  | String c s' => if py_isspace c then lstrip s' else s
  end.

Fixpoint rstrip (s : string) : string :=
  match s with
  | EmptyString => EmptyString
  | String c s' =>
      let t := rstrip s' in
      if str_is_empty t && py_isspace c then EmptyString else String c t
  end.

(** [s.strip()] *)
Definition strip (s : string) : string := rstrip (lstrip s).

(** [str(v).strip() == ""].  Only a [str] can render blank: [str] of
    [None], a bool, a number, a list or a dict is ["None"], ["True"],
    ["False"], a numeral, ["[...]"] or ["{...}"]. *)
Definition str_strip_is_empty (v : value) : bool :=
  match v with
  | VStr s => str_is_empty (strip s)
  | _ => false
  end.

(** [needle in hay] on two strings: substring search. *)
Fixpoint str_contains (needle hay : string) : bool :=
  String.prefix needle hay ||
  match hay with
  | EmptyString => false
  | String _ hay' => str_contains needle hay'
  end.

(** The decimal digits among the code points below 256, and their values. *)
Definition is_digit (c : ascii) : bool :=
  let n := N_of_ascii c in ((48 <=? n) && (n <=? 57))%N.

Definition digit_value (c : ascii) : Z := Z.of_N (N_of_ascii c) - 48.

(** The digit part of an integer literal: digits, with single underscores
    allowed between two digits. *)
Fixpoint int_digits (s : string) (acc : Z) (after_digit : bool) : option Z :=
  match s with
  | EmptyString => if after_digit then Some acc else None
  | String c s' =>
      if is_digit c then int_digits s' (10 * acc + digit_value c) true
      else if Ascii.eqb c "_" && after_digit then int_digits s' acc false
      else None
  end.

(** The blanks [int] skips around a literal.  They are fewer than the
    characters [str.strip] drops: the separators U+001C to U+001F are
    whitespace to [str.isspace] and no blank to [int]. *)
Definition int_isspace (c : ascii) : bool :=
  let n := N_of_ascii c in
  (((9 <=? n) && (n <=? 13)) || (n =? 32) || (n =? 133) || (n =? 160))%N.

Fixpoint int_lstrip (s : string) : string :=
  match s with
  | EmptyString => EmptyString
  | String c s' => if int_isspace c then int_lstrip s' else s
  end.

Fixpoint int_rstrip (s : string) : string :=
  match s with
  | EmptyString => EmptyString
  | String c s' =>
      let t := int_rstrip s' in
      if str_is_empty t && int_isspace c then EmptyString else String c t
  end.

(** [sys.get_int_max_str_digits()], as the interpreter starts with it:
    the most digits a conversion between [str] and [int] takes, in
    either direction. *)
Definition MAX_STR_DIGITS : Z := 4300.

(** The number of digits [str(n)] writes for an [int], the sign apart. *)
Definition int_str_digits (n : Z) : Z :=
  Z.of_nat (Decimal.nb_digits (N.to_uint (Z.abs_N n))).

(** The digits of a literal; underscores do not count, leading zeros do. *)
Fixpoint count_digits (s : string) : Z :=
  match s with
  | EmptyString => 0
  | String c s' => (if is_digit c then 1 else 0) + count_digits s'
  end.

(** An unsigned literal of at most [MAX_STR_DIGITS] digits. *)
Definition int_literal (ds : string) : option Z :=
  if MAX_STR_DIGITS <? count_digits ds then None else int_digits ds 0 false.

(** [int(s)] on a [str]: the blanks around the literal are dropped, one
    sign is allowed; [None] stands for [ValueError]. *)
Definition py_int (s : string) : option Z :=
  match int_rstrip (int_lstrip s) with
  | String "+" ds => int_literal ds
  | String "-" ds => Z.opp <$> int_literal ds
  | ds => int_literal ds
  end.

(** ASCII lower-casing, as [str.lower] acts on a header name. *)
Definition ascii_lower (c : ascii) : ascii :=
  let n := N_of_ascii c in
  if ((65 <=? n) && (n <=? 90))%N then ascii_of_N (n + 32) else c.

Fixpoint lower (s : string) : string :=
  match s with
  | EmptyString => EmptyString
  | String c s' => String (ascii_lower c) (lower s')
  end.

(** ** Responses, requests and the world *)

(** A [requests.Response].  [headers] is the store of a
    [CaseInsensitiveDict]: keyed by lower-cased header names.  [json_body]
    is what [r.json()] decodes, or [None] when the body is not JSON. *)
Record Response : Type := mkResponse {
  status_code : Z;
  reason : string;
  headers : gmap string string;
  json_body : option value
}.

(** Addresses of dict objects. *)
Definition loc : Type := positive.

(** What the outside world sees of a run. *)
Inductive Event : Type :=
  | EvGet (url : string) (hdrs : gmap string string)
          (params : gmap string value) (resp : option Response)
  | EvSleep (secs : Z).

(** [heap] holds the dict objects passed by reference; [HEADERS] is the
    module-level credential header; [pending] are the responses the
    transport will deliver, in order, before the connection fails;
    [trace] is the chronological record of requests and sleeps.

    [HEADERS] is kept apart from [heap]: a location never names it.  The
    model so covers the calls whose [params] is a dict other than
    [HEADERS], as every call in the module is.  A caller that handed
    [HEADERS] itself to [paginated_get] as [params] would have line 52
    write the cursor into the headers of the requests that follow; no
    run of the model shows that. *)
Record World : Type := mkWorld {
  heap : gmap loc (gmap string value);
  HEADERS : gmap string string;
  pending : list Response;
  trace : list Event
}.

(** The dict at [l].  A Python reference always leads to an object; the
    empty dict stands in where the model's heap has none at [l]. *)
Definition deref (w : World) (l : loc) : gmap string value :=
  default ∅ (heap w !! l).

Definition set_heap (h : gmap loc (gmap string value)) (w : World) : World :=
  mkWorld h (HEADERS w) (pending w) (trace w).

Definition set_pending (p : list Response) (w : World) : World :=
  mkWorld (heap w) (HEADERS w) p (trace w).

Definition log (e : Event) (w : World) : World :=
  mkWorld (heap w) (HEADERS w) (pending w) (trace w ++ [e]).

(** ** Outcomes and the monad *)

(** How a call ends: it returns, [sys.exit(code)] unwinds it, an
    exception escapes it, or the model's loop bound is hit. *)
Inductive Outcome (A : Type) : Type :=
  | Return (a : A)
  | Exit (code : Z)
  | Raise (e : exn)
  | OutOfFuel.
Arguments Return {A} a.
Arguments Exit {A} code.
Arguments Raise {A} e.
Arguments OutOfFuel {A}.

(** A computation runs in a world and leaves a world, also when it
    fails: what it did before failing stays on the trace. *)
Definition M (A : Type) : Type := World → Outcome A * World.

#[global] Instance M_ret : MRet M := λ A a w, (Return a, w).

#[global] Instance M_bind : MBind M := λ A B f m w,
  match m w with
  | (Return a, w') => f a w'
  | (Exit c, w') => (Exit c, w')
  | (Raise e, w') => (Raise e, w')
  | (OutOfFuel, w') => (OutOfFuel, w')
  end.

Definition raise {A} (e : exn) : M A := λ w, (Raise e, w).
Definition sys_exit {A} (code : Z) : M A := λ w, (Exit code, w).
Definition out_of_fuel {A} : M A := λ w, (OutOfFuel, w).

(** [try: body except KeyError: handler] *)
Definition try_except_KeyError {A} (body handler : M A) : M A := λ w,
  match body w with
  | (Raise KeyError, w') => handler w'
  | res => res
  end.

(** ** Python operations *)

(** The value a dict holds under [k].  Keys of a decoded object are
    unique; the first entry is the one found. *)
Fixpoint dict_lookup (entries : list (string * value)) (k : string)
  : option value :=
  match entries with
  | [] => None
  | (k', v) :: rest => if String.eqb k' k then Some v else dict_lookup rest k
  end.

(** [obj[key]] with a [str] key. *)
Definition getitem (obj : value) (key : string) : M value :=
  match obj with
  | VDict entries =>
      match dict_lookup entries key with
      | Some v => mret v
      | None => raise KeyError
      end
  | _ => raise TypeError
  end.

(** [v == key] for a [str] [key]. *)
Definition is_str (key : string) (v : value) : bool :=
  match v with VStr s => String.eqb s key | _ => false end.

(** [key in obj] with a [str] key. *)
Definition contains (obj : value) (key : string) : M bool :=
  match obj with
  | VDict entries => mret (bool_decide (is_Some (dict_lookup entries key)))
  | VList items => mret (existsb (is_str key) items)
  | VStr s => mret (str_contains key s)
  | _ => raise TypeError
  end.

(** [iter(v)], as [list.extend] and [len] see it. *)
Definition iterate (v : value) : option (list value) :=
  match v with
  | VList items => Some items
  | VDict entries => Some (map (λ kv, VStr (fst kv)) entries)
  | VStr s => Some (map (λ c, VStr (String c EmptyString)) (list_ascii_of_string s))
  | _ => None
  end.

(** [result.extend(v)], returning the extended list. *)
Definition extend (result : list value) (v : value) : M (list value) :=
  match iterate v with
  | Some xs => mret (result ++ xs)
  | None => raise TypeError
  end.

(** [len(v)] *)
Definition len (v : value) : M nat :=
  match iterate v with
  | Some xs => mret (length xs)
  | None => raise TypeError
  end.

(** [data.get(key, default)], where [key] may be [None]. *)
Definition dict_get (entries : list (string * value)) (key : option string)
    (dflt : value) : value :=
  match key with
  | Some k => default dflt (dict_lookup entries k)
  | None => dflt
  end.

(** [params[key] = v] on the dict object at [params]. *)
Definition setitem (params : loc) (key : string) (v : value) : M unit := λ w,
  (Return tt, set_heap (<[params := <[key := v]> (deref w params)]> (heap w)) w).

(** [r.json()] *)
Definition json (r : Response) : M value :=
  match json_body r with
  | Some v => mret v
  | None => raise JSONDecodeError
  end.

(** [format(n)] on an [int], as an f-string does it for [{n}]: an [int]
    of more than [MAX_STR_DIGITS] digits is not turned into text, and
    [ValueError] is raised.  The text itself goes to standard output and
    is not kept. *)
Definition format_int (n : Z) : M unit := λ w,
  if MAX_STR_DIGITS <? int_str_digits n then (Raise ValueError, w)
  else (Return tt, w).

(** [time.sleep] keeps the time to wait as a count of nanoseconds in 64
    bits: [SLEEP_LIMIT] is the largest whole number of seconds, of
    either sign, that it can hold. *)
Definition SLEEP_LIMIT : Z := 9223372036.

(** [time.sleep(secs)] on a whole number of seconds.  The conversion
    comes first and raises [OverflowError] beyond [SLEEP_LIMIT]; the
    sign is tested next.  The wait itself is then up to the host, which
    can still refuse a deadline that its own clock cannot hold; the
    model has no clock and takes the wait. *)
Definition sleep (secs : Z) : M unit := λ w,
  if (secs <? - SLEEP_LIMIT) || (SLEEP_LIMIT <? secs)
  then (Raise OverflowError, w)
  else if secs <? 0 then (Raise ValueError, w)
  else (Return tt, log (EvSleep secs) w).

(** ** The program *)

(** Lines 14-15. *)
Definition ADDITIONAL_SLEEP_TIME : Z := 2.
Definition MAX_RETRIES : nat := 10.

(** [requests.get(url, headers=HEADERS, params=params)]: one network
    call.  The transport delivers the next pending response; with none
    left the connection fails and [requests] raises. *)
Definition _get_data (url : string) (params : loc) : M Response := λ w,
  match pending w with
  | r :: rest =>
      (Return r,
       log (EvGet url (HEADERS w) (deref w params) (Some r)) (set_pending rest w))
  | [] =>
      (Raise ConnectionError,
       log (EvGet url (HEADERS w) (deref w params) None) w)
  end.

(** The [while attempt < MAX_RETRIES] loop of [get_data], lines 35-48,
    started at any value of [attempt]; it returns the response together
    with the final value of [attempt].  [MAX_RETRIES] iterations are all
    the loop test allows ([get_data_run]).  Of the [print] at line 44
    the model keeps the formatting of [sleep_time], which can raise; the
    two counters it also formats are small. *)
Fixpoint get_data_loop (fuel : nat) (attempt : nat) (url : string)
    (params : loc) : M (nat * Response) :=
  if (attempt <? MAX_RETRIES)%nat then
    match fuel with
    | O => out_of_fuel
    | S fuel' =>
        r ← _get_data url params;
        let attempt := (attempt + 1)%nat in
        if negb (status_code r =? 429) then mret (attempt, r)
        else
          match headers r !! lower "Retry-After" with
          | None => raise KeyError
          | Some h =>
              match py_int h with
              | None => raise ValueError
              | Some retry_after =>
                  let sleep_time := retry_after + ADDITIONAL_SLEEP_TIME in
                  format_int sleep_time;;
                  sleep sleep_time;;
                  get_data_loop fuel' attempt url params
              end
          end
    end
  else sys_exit 1.

(** Lines 31-48: the loop entered with [attempt = 0]. *)
Definition get_data (url : string) (params : loc) : M Response :=
  '(_, r) ← get_data_loop MAX_RETRIES 0 url params;
  mret r.

(** Lines 50-72.  It returns the pair [(next_cursor, d)]. *)
Definition get_at_cursor (url : string) (params : loc) (cursor : value)
  : M (value * value) :=
  (if negb (is_None cursor) then setitem params "cursor" cursor else mret tt);;
  r ← get_data url params;
  if negb (status_code r =? 200) then sys_exit 1
  else
    d ← json r;
    ok ← getitem d "ok";
    if is_False ok then sys_exit 1
    else
      has_metadata ← contains d "response_metadata";
      has_cursor ←
        (if has_metadata : bool then
           metadata ← getitem d "response_metadata";
           contains metadata "next_cursor"
         else mret false);
      next_cursor ←
        (if has_cursor : bool then
           metadata ← getitem d "response_metadata";
           next_cursor ← getitem metadata "next_cursor";
           mret (if str_strip_is_empty next_cursor then VNone else next_cursor)
         else mret VNone);
      mret (next_cursor, d).

(** [data.get(combine_key, data)] at line 94; only a dict has [get]. *)
Definition get_or_self (data : value) (combine_key : option string) : M value :=
  match data with
  | VDict entries => mret (dict_get entries combine_key data)
  | _ => raise AttributeError
  end.

(** The [while True] loop of [paginated_get], lines 79-97, with its
    three variables [next_cursor], [result] and [page_count].  The
    [print] calls write to standard output only; of line 94 the model
    keeps the two calls that could raise. *)
Fixpoint paginated_get_loop (fuel : nat) (url : string) (params : loc)
    (combine_key : option string) (next_cursor : value) (result : list value)
    (page_count : nat) : M (list value) :=
  match fuel with
  | O => out_of_fuel
  | S fuel' =>
      let page_count := (page_count + 1)%nat in
      '(next_cursor, data) ← get_at_cursor url params next_cursor;
      result ←
        try_except_KeyError
          (match combine_key with
           | None => extend result data
           | Some k => items ← getitem data k; extend result items
           end)
          (sys_exit 1);
      shown ← get_or_self data combine_key;
      len shown;;
      if is_None next_cursor then mret result
      else paginated_get_loop fuel' url params combine_key next_cursor result
             page_count
  end.

(** Lines 74-99.  Every page takes at least one pending response, so one
    more iteration than there are pending responses is enough for the
    loop to finish ([paginated_get_total]). *)
Definition paginated_get (url : string) (params : loc)
    (combine_key : option string) : M (list value) := λ w,
  paginated_get_loop (S (length (pending w))) url params combine_key VNone [] 0 w.

(** ** Reading a trace *)

(** A request as sent - the parameters it carried - with the response
    it drew, if any. *)
Abbreviation exchange := (gmap string value * option Response)%type.

Definition exchange_of (e : Event) : option exchange :=
  match e with
  | EvGet _ _ params resp => Some (params, resp)
  | EvSleep _ => None
  end.

Definition sleep_of (e : Event) : option Z :=
  match e with
  | EvGet _ _ _ _ => None
  | EvSleep secs => Some secs
  end.

Definition exchanges (tr : list Event) : list exchange := omap exchange_of tr.
Definition sleeps (tr : list Event) : list Z := omap sleep_of tr.

(** [int(r.headers["Retry-After"])] and the sleep it leads to. *)
Definition retry_after (r : Response) : option Z :=
  headers r !! lower "Retry-After" ≫= py_int.

Definition backoff (r : Response) : Z :=
  default 0 (retry_after r) + ADDITIONAL_SLEEP_TIME.

(** A 429 response whose Retry-After is an integer and whose time to
    sleep lies between 0 and [bound]. *)
Definition sleeps_within (bound : Z) (r : Response) : bool :=
  (status_code r =? 429) &&
  match retry_after r with
  | Some n =>
      (0 <=? n + ADDITIONAL_SLEEP_TIME) && (n + ADDITIONAL_SLEEP_TIME <=? bound)
  | None => false
  end.

(** The responses on which a run of [get_data] sleeps and goes on: the
    time to sleep is one [sleep] converts. *)
Definition is_retried (r : Response) : bool := sleeps_within SLEEP_LIMIT r.

(** A wait every host takes: a hundred million seconds.  Between
    [SLEEP_MAX] and [SLEEP_LIMIT] whether the wait is taken depends on
    the host and on the reading of its clock, to which the time to wait
    is added; up to [SLEEP_MAX] the deadline fits with room to spare. *)
Definition SLEEP_MAX : Z := 100000000.

(** A rate limit that [get_data] waits out: a 429 response whose
    Retry-After is an integer to [int] and whose time to sleep,
    Retry-After plus [ADDITIONAL_SLEEP_TIME], lies between 0 and
    [SLEEP_MAX]. *)
Definition is_rate_limited (r : Response) : bool := sleeps_within SLEEP_MAX r.

(** The trace of a run of rate-limited attempts. *)
Definition retry_events (url : string) (hdrs : gmap string string)
    (params : gmap string value) (retries : list Response) : list Event :=
  flat_map (λ r, [EvGet url hdrs params (Some r); EvSleep (backoff r)]) retries.

(** ** The page fetch and the merge as tables *)

(** The cursor a page carries, after blank-normalisation. *)
Definition page_cursor (r : Response) : value :=
  match json_body r with
  | Some (VDict entries) =>
      match dict_lookup entries "response_metadata" with
      | Some (VDict metadata) =>
          match dict_lookup metadata "next_cursor" with
          | Some c => if str_strip_is_empty c then VNone else c
          | None => VNone
          end
      | _ => VNone
      end
  | _ => VNone
  end.

(** Lines 56-72 as a table over the response [get_data] returned. *)
Definition decode (r : Response) : Outcome (value * value) :=
  if negb (status_code r =? 200) then Exit 1
  else
    match json_body r with
    | None => Raise JSONDecodeError
    | Some (VDict entries) =>
        match dict_lookup entries "ok" with
        | None => Raise KeyError
        | Some ok =>
            if is_False ok then Exit 1
            else
              match dict_lookup entries "response_metadata" with
              | None | Some (VDict _) => Return (page_cursor r, VDict entries)
              | Some (VList items) =>
                  if existsb (is_str "next_cursor") items then Raise TypeError
                  else Return (VNone, VDict entries)
              | Some (VStr s) =>
                  if str_contains "next_cursor" s then Raise TypeError
                  else Return (VNone, VDict entries)
              | Some _ => Raise TypeError
              end
        end
    | Some _ => Raise TypeError
    end.

(** Lines 85-92 as a table over the payload's entries: what is merged
    into [result], or how the merge fails. *)
Definition merge_page (combine_key : option string)
    (entries : list (string * value)) : Outcome (list value) :=
  match combine_key with
  | None => Return (map (λ kv, VStr (fst kv)) entries)
  | Some k =>
      match dict_lookup entries k with
      | None => Exit 1
      | Some v =>
          match iterate v with
          | Some xs => Return xs
          | None => Raise TypeError
          end
      end
  end.

(** ** Worlds along a run *)

(** The world after [params["cursor"] = cursor], done only for a cursor
    that is not [None]. *)
Definition merge_cursor (params : loc) (cursor : value) (w : World) : World :=
  if is_None cursor then w
  else set_heap (<[params := <["cursor" := cursor]> (deref w params)]> (heap w)) w.

(** The world once [retries] rate-limit responses and then [r] have been
    taken from the transport. *)
Definition fetched (url : string) (params : loc) (retries : list Response)
    (r : Response) (rest : list Response) (w : World) : World :=
  mkWorld (heap w) (HEADERS w) rest
    (trace w ++ retry_events url (HEADERS w) (deref w params) retries
             ++ [EvGet url (HEADERS w) (deref w params) (Some r)]).

(** ** Sample data *)

(** Responses as the Slack API sends them, and a world in which the
    [params] dict of [channel_history] sits at location 1. *)
Definition rate_limit_response (secs : string) : Response :=
  mkResponse 429 "Too Many Requests" {[ "retry-after" := secs ]} None.

Definition bare_rate_limit_response : Response :=
  mkResponse 429 "Too Many Requests" ∅ None.

Definition json_response (status : Z) (entries : list (string * value))
  : Response :=
  mkResponse status "OK" ∅ (Some (VDict entries)).

Definition history_page (messages : list value) (cursor : value)
  : list (string * value) :=
  [("ok", VBool true); ("messages", VList messages);
   ("response_metadata", VDict [("next_cursor", cursor)])].

Definition history_url : string := "https://slack.com/api/conversations.history".

Definition history_params : gmap string value :=
  {[ "channel" := VStr "C024BE91L"; "limit" := VInt 200 ]}.

Definition sample_world (responses : list Response) : World :=
  mkWorld {[ 1%positive := history_params ]}
    {[ "Authorization" := "Bearer xoxp-test" ]} responses [].

(** ** Well-formed pages *)

(** [ok] is present and is not [False]. *)
Definition ok_flag (entries : list (string * value)) : bool :=
  match dict_lookup entries "ok" with
  | Some ok => negb (is_False ok)
  | None => false
  end.

(** [response_metadata] is absent or is an object. *)
Definition metadata_is_object (entries : list (string * value)) : bool :=
  match dict_lookup entries "response_metadata" with
  | None | Some (VDict _) => true
  | Some _ => false
  end.

(** The payload of a successful page: status 200, a JSON object whose
    [ok] is not [False] and whose [response_metadata], if present, is an
    object. *)
Definition envelope (r : Response) : option (list (string * value)) :=
  if status_code r =? 200 then
    match json_body r with
    | Some (VDict entries) =>
        if ok_flag entries && metadata_is_object entries then Some entries
        else None
    | _ => None
    end
  else None.

(** What a page contributes to the result, when the merge goes through. *)
Definition page_yield (combine_key : option string) (r : Response)
  : option (list value) :=
  match envelope r with
  | Some entries =>
      match merge_page combine_key entries with
      | Return xs => Some xs
      | _ => None
      end
  | None => None
  end.

(** The page names a next page. *)
Definition has_cursor (r : Response) : bool := negb (is_None (page_cursor r)).

(** The world once page [r] has come in without any rate limiting. *)
Definition page_fetched (url : string) (params : loc) (cursor : value)
    (r : Response) (rest : list Response) (w : World) : World :=
  fetched url params [] r rest (merge_cursor params cursor w).

(** The cursor in hand after [pages], starting from [cursor]. *)
Definition last_cursor (cursor : value) (pages : list Response) : value :=
  match last pages with
  | Some r => page_cursor r
  | None => cursor
  end.

(** What [pages] contribute to the result, page after page. *)
Definition yields (combine_key : option string) (pages : list Response)
  : list value :=
  concat (map (λ r, default [] (page_yield combine_key r)) pages).

(** The item list a page holds under [key]. *)
Definition page_items (key : string) (r : Response) : option (list value) :=
  match envelope r with
  | Some entries =>
      match dict_lookup entries key with
      | Some (VList items) => Some items
      | _ => None
      end
  | None => None
  end.

(** A well-formed page that holds a list under [key]. *)
Definition is_page (key : string) (r : Response) : bool :=
  bool_decide (is_Some (page_items key r)).

(** The member names of a page payload, in document order. *)
Definition page_keys (r : Response) : list value :=
  match envelope r with
  | Some entries => map (λ kv, VStr (fst kv)) entries
  | None => []
  end.

(** ** Blank cursors *)

(** Every character of [s] is whitespace; the empty string qualifies. *)
Definition whitespace_only (s : string) : Prop :=
  Forall (λ c, py_isspace c = true) (list_ascii_of_string s).

(** The ways a page payload can say that no page follows:
    [response_metadata] is absent, it has no [next_cursor] member, or
    that member is [null] or a [str] that is empty or all whitespace. *)
Inductive no_next_cursor (entries : list (string * value)) : Prop :=
  | metadata_absent :
      dict_lookup entries "response_metadata" = None →
      no_next_cursor entries
  | cursor_missing metadata :
      dict_lookup entries "response_metadata" = Some (VDict metadata) →
      dict_lookup metadata "next_cursor" = None →
      no_next_cursor entries
  | cursor_null metadata :
      dict_lookup entries "response_metadata" = Some (VDict metadata) →
      dict_lookup metadata "next_cursor" = Some VNone →
      no_next_cursor entries
  | cursor_blank metadata s :
      dict_lookup entries "response_metadata" = Some (VDict metadata) →
      dict_lookup metadata "next_cursor" = Some (VStr s) →
      whitespace_only s →
      no_next_cursor entries.

(** ** The cursor carried from one request to the next *)

(** The [cursor] parameter the next request is due to carry, given the
    one the last request was due to carry and the response it drew: a
    rate-limit response has the same request sent again, any other
    response passes on the cursor of its page. *)
Definition next_expected (expected : option value) (resp : option Response)
  : option value :=
  match resp with
  | Some r => if status_code r =? 429 then expected else Some (page_cursor r)
  | None => expected
  end.

(** Every request of [xs] carries the [cursor] it is due to carry, the
    first one being due [expected]; [chain_end] is what a request after
    [xs] would be due to carry. *)
Fixpoint cursor_chain (expected : option value) (xs : list exchange) : Prop :=
  match xs with
  | [] => True
  | (ps, resp) :: xs' =>
      ps !! "cursor" = expected ∧ cursor_chain (next_expected expected resp) xs'
  end.

Fixpoint chain_end (expected : option value) (xs : list exchange)
  : option value :=
  match xs with
  | [] => expected
  | (_, resp) :: xs' => chain_end (next_expected expected resp) xs'
  end.

(** ** The rest of the module *)

(** Lines 22-26: the credential header, built once from the process
    environment; without the token the module exits. *)
Definition init_HEADERS (environ : gmap string string)
  : Outcome (gmap string string) :=
  match environ !! "SLACK_USER_TOKEN" with
  | Some token => Return {[ "Authorization" := "Bearer " +:+ token ]}
  | None => Exit 1
  end.

(** A dict display [{...}]: a new object, at an address no object has. *)
Definition new_dict (d : gmap string value) : M loc := λ w,
  let l := fresh (dom (heap w)) in
  (Return l, set_heap (<[l := d]> (heap w)) w).

(** Lines 101-116. *)
Definition channel_history (channel_id oldest latest : value)
  : M (list value) :=
  params ← new_dict {[ "channel" := channel_id; "limit" := VInt 200 ]};
  (if negb (is_None oldest) then setitem params "oldest" oldest else mret tt);;
  (if negb (is_None latest) then setitem params "latest" latest else mret tt);;
  paginated_get "https://slack.com/api/conversations.history" params
    (Some "messages").

(** The dict [channel_history] has built when it calls [paginated_get]. *)
Definition history_query (channel_id oldest latest : value)
  : gmap string value :=
  let params := {[ "channel" := channel_id; "limit" := VInt 200 ]} in
  let params :=
    if is_None oldest then params else <["oldest" := oldest]> params in
  if is_None latest then params else <["latest" := latest]> params.

(** A command-line argument as [argparse] hands it over: [None] when the
    option was not given, else its text.  [truthy a] is [bool(a)]. *)
Definition arg_value (a : option string) : value :=
  match a with
  | Some s => VStr s
  | None => VNone
  end.

Definition truthy (a : option string) : bool :=
  match a with
  | Some (String _ _) => true
  | _ => false
  end.

(** Lines 128-142 of the main block: the two checks on the arguments,
    then the fetch.  [ch], [o], [fr] and [to] are [args.ch], [args.o],
    [args.fr] and [args.to]. *)
Definition main_fetch (ch o fr to : option string) : M (list value) :=
  if negb (truthy ch) then sys_exit 1
  else if negb (truthy o) then sys_exit 1
  else channel_history (arg_value ch) (arg_value fr) (arg_value to).

(** ** The text export of the main block *)

Definition newline : ascii := "010"%char.

(** [text.replace('\n', ' ')] *)
Fixpoint replace_newlines (text : string) : string :=
  match text with
  | EmptyString => EmptyString
  | String c text' =>
      String (if Ascii.eqb c newline then " "%char else c)
        (replace_newlines text')
  end.

(** Lines 171-174 for one message: the entry written for it, if any.
    [format_ts ts] stands for
    [datetime.fromtimestamp(float(ts)).strftime('%Y-%m-%d %H:%M:%S')],
    which reads the clock settings of the machine. *)
Definition text_entry (format_ts : value → Outcome string) (msg : value)
  : Outcome (option string) :=
  match msg with
  | VDict entries =>
      if is_str "message" (dict_get entries (Some "type") VNone)
         && bool_decide (is_Some (dict_lookup entries "text"))
      then
        match dict_lookup entries "ts" with
        | None => Raise KeyError
        | Some ts =>
            match format_ts ts with
            | Return timestamp =>
                match dict_lookup entries "text" with
                | Some (VStr text) =>
                    Return (Some ("[" +:+ timestamp +:+ "] "
                                  +:+ replace_newlines text
                                  +:+ String newline (String newline "")))
                | _ => Raise AttributeError
                end
            | Exit code => Exit code
            | Raise e => Raise e
            | OutOfFuel => OutOfFuel
            end
        end
      else Return None
  | _ => Raise AttributeError
  end.

(** Lines 170-174: the loop over [ch_hist] in text mode, with what has
    been written to the file so far. *)
Fixpoint write_text (format_ts : value → Outcome string)
    (ch_hist : list value) (written : list string)
  : Outcome unit * list string :=
  match ch_hist with
  | [] => (Return tt, written)
  | msg :: rest =>
      match text_entry format_ts msg with
      | Return (Some entry) => write_text format_ts rest (written ++ [entry])
      | Return None => write_text format_ts rest written
      | Exit code => (Exit code, written)
      | Raise e => (Raise e, written)
      | OutOfFuel => (OutOfFuel, written)
      end
  end.

(** The messages the text export writes an entry for. *)
Definition exported (msg : value) : bool :=
  match msg with
  | VDict entries =>
      is_str "message" (dict_get entries (Some "type") VNone)
      && bool_decide (is_Some (dict_lookup entries "text"))
  | _ => false
  end.

(** ** Readings of a trace and of a script, continued *)

(** Where a request went and the headers it carried. *)
Definition target_of (e : Event) : option (string * gmap string string) :=
  match e with
  | EvGet url hdrs _ _ => Some (url, hdrs)
  | EvSleep _ => None
  end.

Definition targets (tr : list Event) : list (string * gmap string string) :=
  omap target_of tr.

(** The responses a trace took in that were not rate limits. *)
Definition answered (xs : list exchange) : list Response :=
  omap (λ x : exchange,
          match snd x with
          | Some r => if status_code r =? 429 then None else Some r
          | None => None
          end) xs.

(** What the loop of [paginated_get] merges for a response [get_data]
    hands it, if [get_at_cursor] and the merge both go through. *)
Definition page_merge (combine_key : option string) (r : Response)
  : option (list value) :=
  match decode r with
  | Return (_, VDict entries) =>
      match merge_page combine_key entries with
      | Return xs => Some xs
      | _ => None
      end
  | _ => None
  end.

(** A page as the server may deliver it: some rate-limit responses, each
    of which [get_data] waits out, then the page itself.  A delivery is
    well delivered when its rate limits are fewer than [MAX_RETRIES],
    each asks for a wait that leaves a time to sleep from 0 to
    [SLEEP_MAX], and the page merges. *)
Record Delivery : Type := mkDelivery {
  limits : list Response;
  page : Response
}.

Definition delivered (ds : list Delivery) : list Response :=
  concat (map (λ d, limits d ++ [page d]) ds).

Definition well_delivered (combine_key : option string) (d : Delivery) : bool :=
  forallb is_rate_limited (limits d) &&
  bool_decide (length (limits d) < MAX_RETRIES)%nat &&
  bool_decide (is_Some (page_yield combine_key (page d))).

Arguments lower : simpl never.
Arguments py_int : simpl never.
Arguments strip : simpl never.
Arguments str_contains : simpl never.
Arguments backoff : simpl never.
Arguments retry_after : simpl never.
Arguments int_str_digits : simpl never.

(** * Part II: lemmas *)

(** ** The retry loop on scripted responses *)

Lemma bind_Return {A B} (m : M A) (f : A → M B) w a w' :
  m w = (Return a, w') → (m ≫= f) w = f a w'.
Proof. intros H. unfold mbind, M_bind. by rewrite H. Qed.

(** A wait every host takes is one [sleep] converts. *)
Lemma is_rate_limited_retried r :
  is_rate_limited r = true → is_retried r = true.
Proof.
  unfold is_rate_limited, is_retried, sleeps_within.
  intros [Hs Hn]%andb_prop. rewrite Hs. simpl.
  destruct (retry_after r) as [n|]; [|done].
  apply andb_prop in Hn as [H0 Hmax]. rewrite H0. simpl.
  apply Z.leb_le in Hmax. apply Z.leb_le.
  unfold SLEEP_MAX, SLEEP_LIMIT in *. lia.
Qed.

Lemma rate_limited_retried retries :
  forallb is_rate_limited retries = true → forallb is_retried retries = true.
Proof.
  induction retries as [|r retries IH]; [done|]. simpl.
  intros [Hr Hall]%andb_prop.
  by rewrite (is_rate_limited_retried _ Hr), (IH Hall).
Qed.

(** What [is_retried] says of a response. *)
Lemma is_retried_inv r :
  is_retried r = true →
  status_code r = 429 ∧ retry_after r = Some (backoff r - ADDITIONAL_SLEEP_TIME) ∧
  0 ≤ backoff r ≤ SLEEP_LIMIT.
Proof.
  unfold is_retried, sleeps_within, backoff.
  intros [Hs Hn]%andb_prop. apply Z.eqb_eq in Hs.
  destruct (retry_after r) as [n|]; [|done]. simpl.
  apply andb_prop in Hn as [H0 Hmax].
  apply Z.leb_le in H0. apply Z.leb_le in Hmax.
  repeat split; try done. f_equal. lia.
Qed.

Lemma to_little_uint_digits_double d :
  (Decimal.nb_digits (Decimal.Little.double d) ≤ S (Decimal.nb_digits d))%nat ∧
  (Decimal.nb_digits (Decimal.Little.succ_double d) ≤ S (Decimal.nb_digits d))%nat.
Proof.
  induction d as [|d [IH1 IH2]|d [IH1 IH2]|d [IH1 IH2]|d [IH1 IH2]|d [IH1 IH2]
                  |d [IH1 IH2]|d [IH1 IH2]|d [IH1 IH2]|d [IH1 IH2]|d [IH1 IH2]];
    cbn [Decimal.nb_digits Decimal.Little.double Decimal.Little.succ_double];
    lia.
Qed.

(** A number has no more decimal digits than binary ones. *)
Lemma to_little_uint_digits p :
  (Decimal.nb_digits (Pos.to_little_uint p) ≤ Pos.size_nat p)%nat.
Proof.
  induction p as [p IH|p IH|];
    cbn [Pos.to_little_uint Pos.size_nat Decimal.nb_digits]; [| |lia].
  - destruct (to_little_uint_digits_double (Pos.to_little_uint p)) as [_ H]. lia.
  - destruct (to_little_uint_digits_double (Pos.to_little_uint p)) as [H _]. lia.
Qed.

(** A time [sleep] can hold is far from the cap on digits. *)
Lemma int_str_digits_small n :
  Z.abs n ≤ SLEEP_LIMIT → int_str_digits n ≤ MAX_STR_DIGITS.
Proof.
  intros Hn. unfold int_str_digits.
  pose proof (N2Z.inj_abs_N n) as Habs.
  destruct (Z.abs_N n) as [|p]; [by vm_compute|].
  rewrite <- Habs in Hn. clear Habs.
  assert (Hs : (Pos.size_nat p ≤ 34)%nat).
  { destruct (Pos.ltb_spec p 9223372037) as [Hlt|Hge].
    - by apply Pos.size_nat_monotone in Hlt.
    - apply Pos2Z.pos_le_pos in Hge.
      pose proof (Z.le_trans _ _ _ Hge Hn) as Habs.
      vm_compute in Habs. by destruct Habs. }
  cbn [N.to_uint]. unfold Pos.to_uint. rewrite nb_digits_rev.
  pose proof (to_little_uint_digits p) as Hd.
  apply (Z.le_trans _ 34); [|done].
  change 34 with (Z.of_nat 34). apply Nat2Z.inj_le.
  by etransitivity.
Qed.

Lemma format_int_Return secs w :
  0 ≤ secs ≤ SLEEP_LIMIT → format_int secs w = (Return tt, w).
Proof.
  intros [H0 Hmax]. unfold format_int.
  destruct (Z.ltb_spec MAX_STR_DIGITS (int_str_digits secs)) as [Hlt|]; [|done].
  pose proof (int_str_digits_small secs) as Hsmall.
  rewrite Z.abs_eq in Hsmall by done. specialize (Hsmall Hmax).
  exfalso. by apply (Z.lt_irrefl MAX_STR_DIGITS), (Z.lt_le_trans _ _ _ Hlt).
Qed.

Lemma sleep_Return secs w :
  0 ≤ secs ≤ SLEEP_LIMIT → sleep secs w = (Return tt, log (EvSleep secs) w).
Proof.
  intros [H0 Hmax]. unfold sleep.
  destruct (Z.ltb_spec secs (- SLEEP_LIMIT)); [unfold SLEEP_LIMIT in *; lia|].
  destruct (Z.ltb_spec SLEEP_LIMIT secs); [lia|]. simpl.
  by destruct (Z.ltb_spec secs 0); [lia|].
Qed.

Lemma get_data_loop_retry fuel attempt url params w r rest :
  (attempt < MAX_RETRIES)%nat →
  pending w = r :: rest →
  is_retried r = true →
  get_data_loop (S fuel) attempt url params w =
  get_data_loop fuel (attempt + 1) url params
    (mkWorld (heap w) (HEADERS w) rest
       (trace w ++ [EvGet url (HEADERS w) (deref w params) (Some r);
                    EvSleep (backoff r)])).
Proof.
  intros Hlt Hp Hr.
  apply andb_prop in Hr as [Hs Hh].
  unfold backoff. destruct (retry_after r) as [n|] eqn:Hn; [|done].
  unfold retry_after in Hn.
  apply andb_prop in Hh as [H0 Hmax].
  apply Z.leb_le in H0. apply Z.leb_le in Hmax.
  simpl. apply Nat.ltb_lt in Hlt. rewrite Hlt.
  unfold mbind at 1, M_bind at 1, _get_data. rewrite Hp.
  rewrite Hs. simpl negb. cbv iota.
  destruct (headers r !! lower "Retry-After") as [h|]; [|done].
  simpl in Hn. rewrite Hn.
  simpl negb. cbv iota.
  unfold mbind at 1, M_bind at 1. cbn [negb]. cbv beta iota.
  rewrite format_int_Return by done.
  unfold mbind at 1, M_bind at 1. rewrite sleep_Return by done.
  unfold log, set_pending; simpl. by rewrite <- app_assoc.
Qed.

Lemma get_data_loop_done fuel attempt url params w r rest :
  (attempt < MAX_RETRIES)%nat →
  pending w = r :: rest →
  status_code r ≠ 429 →
  get_data_loop (S fuel) attempt url params w =
  (Return ((attempt + 1)%nat, r),
   mkWorld (heap w) (HEADERS w) rest
     (trace w ++ [EvGet url (HEADERS w) (deref w params) (Some r)])).
Proof.
  intros Hlt Hp Hs. simpl. apply Nat.ltb_lt in Hlt. rewrite Hlt.
  unfold mbind, M_bind, _get_data. rewrite Hp.
  apply Z.eqb_neq in Hs. by rewrite Hs.
Qed.

Lemma get_data_loop_limit fuel attempt url params w :
  (MAX_RETRIES ≤ attempt)%nat →
  get_data_loop fuel attempt url params w = (Exit 1, w).
Proof.
  intros Hge. apply Nat.ltb_ge in Hge.
  destruct fuel; simpl; by rewrite Hge.
Qed.

(** A run of rate-limit responses followed by any other response. *)
Lemma get_data_loop_retries retries :
  ∀ fuel attempt url params w r rest,
  pending w = retries ++ r :: rest →
  forallb is_retried retries = true →
  (attempt + length retries < MAX_RETRIES)%nat →
  (length retries < fuel)%nat →
  status_code r ≠ 429 →
  get_data_loop fuel attempt url params w =
  (Return ((attempt + length retries + 1)%nat, r),
   mkWorld (heap w) (HEADERS w) rest
     (trace w ++ retry_events url (HEADERS w) (deref w params) retries
              ++ [EvGet url (HEADERS w) (deref w params) (Some r)])).
Proof.
  induction retries as [|r0 retries IH];
    intros fuel attempt url params w r rest Hp Hall Hlt Hfuel Hs;
    (destruct fuel as [|fuel]; [simpl in Hfuel; lia|]);
    simpl in Hp, Hall, Hlt, Hfuel.
  - rewrite Nat.add_0_r in *. by apply get_data_loop_done.
  - apply andb_prop in Hall as [Hr0 Hall].
    rewrite (get_data_loop_retry _ _ _ _ _ r0 (retries ++ r :: rest))
      by (done || lia).
    rewrite (IH _ _ _ _ _ r rest); simpl; try done; try lia.
    unfold deref; simpl. rewrite <- !app_assoc. simpl.
    do 3 f_equal. lia.
Qed.

(** A run of rate-limit responses that uses up every attempt. *)
Lemma get_data_loop_gives_up retries :
  ∀ fuel attempt url params w rest,
  pending w = retries ++ rest →
  forallb is_retried retries = true →
  (attempt + length retries = MAX_RETRIES)%nat →
  (length retries ≤ fuel)%nat →
  get_data_loop fuel attempt url params w =
  (Exit 1,
   mkWorld (heap w) (HEADERS w) rest
     (trace w ++ retry_events url (HEADERS w) (deref w params) retries)).
Proof.
  induction retries as [|r0 retries IH];
    intros fuel attempt url params w rest Hp Hall Hlt Hfuel;
    simpl in Hp, Hall, Hlt, Hfuel.
  - rewrite get_data_loop_limit by lia. rewrite app_nil_r, <- Hp.
    by destruct w.
  - destruct fuel as [|fuel]; [lia|].
    apply andb_prop in Hall as [Hr0 Hall].
    rewrite (get_data_loop_retry _ _ _ _ _ r0 (retries ++ rest))
      by (done || lia).
    rewrite (IH _ _ _ _ _ rest); simpl; try done; try lia.
    unfold deref; simpl. by rewrite <- !app_assoc.
Qed.

Lemma get_data_loop_no_header fuel attempt url params w r rest :
  (attempt < MAX_RETRIES)%nat →
  pending w = r :: rest →
  status_code r = 429 →
  headers r !! lower "Retry-After" = None →
  get_data_loop (S fuel) attempt url params w =
  (Raise KeyError,
   mkWorld (heap w) (HEADERS w) rest
     (trace w ++ [EvGet url (HEADERS w) (deref w params) (Some r)])).
Proof.
  intros Hlt Hp Hs Hh. simpl. apply Nat.ltb_lt in Hlt. rewrite Hlt.
  unfold mbind, M_bind, _get_data. rewrite Hp, Hs, Hh. done.
Qed.

(** ** One page fetch *)

Lemma get_at_cursor_decode url params cursor w :
  get_at_cursor url params cursor w =
  match get_data url params (merge_cursor params cursor w) with
  | (Return r, w1) => (decode r, w1)
  | (Exit c, w1) => (Exit c, w1)
  | (Raise e, w1) => (Raise e, w1)
  | (OutOfFuel, w1) => (OutOfFuel, w1)
  end.
Proof.
  unfold get_at_cursor, merge_cursor.
  unfold mbind at 1, M_bind at 1.
  assert (Hm : (if negb (is_None cursor) then setitem params "cursor" cursor
                else mret ()) w =
               (Return (), if is_None cursor then w
                 else set_heap (<[params := <["cursor" := cursor]> (deref w params)]> (heap w)) w)).
  { by destruct (is_None cursor). }
  rewrite Hm. clear Hm.
  unfold mbind at 1, M_bind at 1.
  destruct (get_data url params _) as [[r| | |] w1]; try done.
  unfold decode, page_cursor.
  destruct (status_code r =? 200); [|done]. simpl negb. cbv iota.
  unfold json. destruct (json_body r) as [d|]; [|done].
  unfold mbind at 1, M_bind at 1, mret at 1, M_ret at 1.
  destruct d as [| | | | |items|entries]; try done.
  unfold mbind at 1, M_bind at 1, getitem at 1.
  destruct (dict_lookup entries "ok") as [ok|]; [|done].
  unfold mret at 1, M_ret at 1.
  destruct (is_False ok); [done|].
  unfold mbind, M_bind, mret, M_ret, contains, getitem, raise.
  destruct (dict_lookup entries "response_metadata") as [md|] eqn:Hmd;
    [|by rewrite bool_decide_eq_false_2 by (by intros [? ?])].
  rewrite bool_decide_eq_true_2 by eauto.
  destruct md as [| | | |s|items|metadata]; try done.
  - cbn. destruct (str_contains "next_cursor" s); reflexivity.
  - cbn. destruct (existsb (is_str "next_cursor") items); reflexivity.
  - destruct (dict_lookup metadata "next_cursor") as [c|] eqn:Hc.
    + cbn. rewrite bool_decide_eq_true_2 by eauto. cbn. by rewrite Hc.
    + cbn. rewrite bool_decide_eq_false_2; [done|]. rewrite Hc. by intros [? ?].
Qed.

Lemma get_data_retries url params w retries r rest :
  pending w = retries ++ r :: rest →
  forallb is_retried retries = true →
  (length retries < MAX_RETRIES)%nat →
  status_code r ≠ 429 →
  get_data url params w = (Return r, fetched url params retries r rest w).
Proof.
  intros Hp Hall Hlen Hs. unfold get_data.
  by rewrite (bind_Return _ _ _ _ _
    (get_data_loop_retries retries _ 0%nat url params w r rest Hp Hall Hlen Hlen Hs)).
Qed.

Lemma merge_cursor_pending params cursor w :
  pending (merge_cursor params cursor w) = pending w.
Proof. unfold merge_cursor. by destruct (is_None cursor). Qed.

Lemma get_at_cursor_fetch url params cursor w retries r rest :
  pending w = retries ++ r :: rest →
  forallb is_retried retries = true →
  (length retries < MAX_RETRIES)%nat →
  status_code r ≠ 429 →
  get_at_cursor url params cursor w =
  (decode r, fetched url params retries r rest (merge_cursor params cursor w)).
Proof.
  intros Hp Hall Hlen Hs. rewrite get_at_cursor_decode.
  rewrite (get_data_retries _ _ _ retries r rest); try done.
  by rewrite merge_cursor_pending.
Qed.

Lemma decode_Return r c d :
  decode r = Return (c, d) →
  status_code r = 200 ∧ json_body r = Some d ∧ c = page_cursor r ∧
  ∃ entries, d = VDict entries.
Proof.
  unfold decode, page_cursor.
  destruct (Z.eqb_spec (status_code r) 200) as [Hs|]; [simpl|done].
  destruct (json_body r) as [[| | | | | |entries]|]; try done.
  destruct (dict_lookup entries "ok") as [ok|]; [|done].
  destruct (is_False ok); [done|].
  destruct (dict_lookup entries "response_metadata") as [[| | | |s|items|md]|];
    try done.
  - destruct (str_contains _ _); [done|]. intros [= <- <-]. eauto.
  - destruct (existsb _ _); [done|]. intros [= <- <-]. eauto.
  - intros [= <- <-]. eauto.
  - intros [= <- <-]. eauto.
Qed.

(** ** One turn of the page loop *)

Lemma paginated_get_loop_step fuel url params combine_key cursor result
    page_count w c entries w1 :
  get_at_cursor url params cursor w = (Return (c, VDict entries), w1) →
  paginated_get_loop (S fuel) url params combine_key cursor result page_count w =
  match merge_page combine_key entries with
  | Return xs =>
      if is_None c then (Return (result ++ xs), w1)
      else paginated_get_loop fuel url params combine_key c (result ++ xs)
             (page_count + 1) w1
  | Exit code => (Exit code, w1)
  | Raise e => (Raise e, w1)
  | OutOfFuel => (OutOfFuel, w1)
  end.
Proof.
  intros Hget. simpl. rewrite (bind_Return _ _ _ _ _ Hget).
  unfold merge_page, mbind at 1, M_bind at 1, try_except_KeyError.
  destruct combine_key as [k|].
  - unfold getitem, mbind at 1, M_bind at 1.
    destruct (dict_lookup entries k) as [v|] eqn:Hk; [|done].
    unfold mret at 1, M_ret at 1, extend.
    destruct (iterate v) as [xs|] eqn:Hv; [|done].
    unfold mret at 1, M_ret at 1, mbind at 1, M_bind at 1. 
    unfold get_or_self, dict_get. rewrite Hk. simpl. 
    unfold mret at 1, M_ret at 1, mbind at 1, M_bind at 1, len. rewrite Hv.
    by destruct (is_None c).
  - by destruct (is_None c).
Qed.

Lemma paginated_get_loop_stop fuel url params combine_key cursor result
    page_count w o w1 :
  get_at_cursor url params cursor w = (o, w1) →
  (∀ p, o ≠ Return p) →
  paginated_get_loop (S fuel) url params combine_key cursor result page_count w =
  (match o with
   | Return _ => OutOfFuel
   | Exit code => Exit code
   | Raise e => Raise e
   | OutOfFuel => OutOfFuel
   end, w1).
Proof.
  intros Hget Ho. simpl. unfold mbind at 1, M_bind at 1. rewrite Hget.
  destruct o; try done. by destruct (Ho a).
Qed.

(** ** Skipping over rate-limited attempts *)

Lemma get_data_loop_skip retries :
  ∀ fuel attempt url params w rest,
  pending w = retries ++ rest →
  forallb is_retried retries = true →
  (attempt + length retries ≤ MAX_RETRIES)%nat →
  get_data_loop (length retries + fuel) attempt url params w =
  get_data_loop fuel (attempt + length retries) url params
    (mkWorld (heap w) (HEADERS w) rest
       (trace w ++ retry_events url (HEADERS w) (deref w params) retries)).
Proof.
  induction retries as [|r0 retries IH];
    intros fuel attempt url params w rest Hp Hall Hlt;
    simpl in Hp, Hall, Hlt.
  - simpl length. rewrite Nat.add_0_r, app_nil_r, <- Hp. by destruct w.
  - apply andb_prop in Hall as [Hr0 Hall].
    change (length (r0 :: retries) + fuel)%nat
      with (S (length retries + fuel)).
    rewrite (get_data_loop_retry _ _ _ _ _ r0 (retries ++ rest))
      by (done || lia).
    rewrite (IH _ _ _ _ _ rest); simpl; try done; try lia.
    unfold deref; simpl. rewrite <- !app_assoc. simpl.
    by replace (attempt + 1 + length retries)%nat
      with (attempt + S (length retries))%nat by lia.
Qed.

Lemma exchanges_retry_events url hdrs ps retries :
  exchanges (retry_events url hdrs ps retries) = map (λ r, (ps, Some r)) retries.
Proof.
  induction retries as [|r retries IH]; [done|].
  unfold exchanges, retry_events in *. simpl. f_equal. exact IH.
Qed.

(** ** Runs over well-formed pages *)

Lemma envelope_Some r entries :
  envelope r = Some entries →
  status_code r = 200 ∧ json_body r = Some (VDict entries) ∧
  ok_flag entries = true ∧ metadata_is_object entries = true.
Proof.
  unfold envelope. destruct (Z.eqb_spec (status_code r) 200); [|done].
  destruct (json_body r) as [[| | | | | |es]|]; try done.
  destruct (ok_flag es) eqn:Hok; [|done].
  destruct (metadata_is_object es) eqn:Hmd; [|done].
  by intros [= <-].
Qed.

Lemma decode_envelope r entries :
  envelope r = Some entries →
  decode r = Return (page_cursor r, VDict entries).
Proof.
  intros (Hs & Hj & Hok & Hmd)%envelope_Some.
  unfold decode, ok_flag, metadata_is_object in *. rewrite Hs, Hj. simpl.
  destruct (dict_lookup entries "ok") as [ok|]; [|done].
  destruct (is_False ok); [done|].
  by destruct (dict_lookup entries "response_metadata")
    as [[| | | | | |md]|].
Qed.

Lemma merge_cursor_trace params cursor w :
  trace (merge_cursor params cursor w) = trace w.
Proof. unfold merge_cursor. by destruct (is_None cursor). Qed.

Lemma merge_cursor_headers params cursor w :
  HEADERS (merge_cursor params cursor w) = HEADERS w.
Proof. unfold merge_cursor. by destruct (is_None cursor). Qed.

Lemma paginated_get_loop_page fuel url params combine_key cursor result
    page_count w r rest entries :
  pending w = r :: rest →
  envelope r = Some entries →
  paginated_get_loop (S fuel) url params combine_key cursor result page_count w =
  let w1 := page_fetched url params cursor r rest w in
  match merge_page combine_key entries with
  | Return xs =>
      if is_None (page_cursor r) then (Return (result ++ xs), w1)
      else paginated_get_loop fuel url params combine_key (page_cursor r)
             (result ++ xs) (page_count + 1) w1
  | Exit code => (Exit code, w1)
  | Raise e => (Raise e, w1)
  | OutOfFuel => (OutOfFuel, w1)
  end.
Proof.
  intros Hp Henv.
  apply paginated_get_loop_step.
  rewrite (get_at_cursor_fetch _ _ _ _ [] r rest); try done.
  - by rewrite (decode_envelope _ _ Henv).
  - unfold MAX_RETRIES. simpl. lia.
  - apply envelope_Some in Henv as (-> & _). lia.
Qed.

(** The loop runs through any number of mergeable pages that each carry
    a cursor, one request per page and no sleep. *)
Lemma paginated_get_loop_pages url params combine_key pages :
  ∀ cursor result page_count w rest,
  pending w = pages ++ rest →
  forallb (λ r, bool_decide (is_Some (page_yield combine_key r))) pages = true →
  forallb has_cursor pages = true →
  ∃ w' events,
    pending w' = rest ∧ HEADERS w' = HEADERS w ∧
    trace w' = trace w ++ events ∧
    map snd (exchanges events) = map Some pages ∧
    sleeps events = [] ∧
    ∀ fuel,
      paginated_get_loop (length pages + fuel) url params combine_key cursor
        result page_count w =
      paginated_get_loop fuel url params combine_key
        (last_cursor cursor pages) (result ++ yields combine_key pages)
        (page_count + length pages) w'.
Proof.
  induction pages as [|r pages IH];
    intros cursor result page_count w rest Hp Hy Hc; simpl in Hp, Hy, Hc.
  - exists w, []. rewrite app_nil_r. repeat split; try done.
    intros fuel. unfold yields, last_cursor. simpl.
    by rewrite app_nil_r, Nat.add_0_r.
  - apply andb_prop in Hy as [Hr Hy]. apply andb_prop in Hc as [Hcr Hc].
    apply bool_decide_eq_true in Hr as [xs Hxs].
    unfold page_yield in Hxs.
    destruct (envelope r) as [entries|] eqn:Henv; [|done].
    destruct (merge_page combine_key entries) as [xs'| | |] eqn:Hm; try done.
    injection Hxs as ->.
    set (w1 := page_fetched url params cursor r (pages ++ rest) w).
    destruct (IH (page_cursor r) (result ++ xs) (page_count + 1)%nat w1 rest)
      as (w' & events & Hp' & Hh' & Ht' & He' & Hs' & Hloop);
      [reflexivity | done | done |].
    exists w', (EvGet url (HEADERS w) (deref (merge_cursor params cursor w) params) (Some r) :: events).
    split; [done|]. split.
    { rewrite Hh'. unfold w1, page_fetched, fetched, merge_cursor. simpl.
      by destruct (is_None cursor). }
    split.
    { rewrite Ht'. unfold w1, page_fetched, fetched. simpl.
      rewrite <- app_assoc, merge_cursor_trace, merge_cursor_headers.
      reflexivity. }
    split.
    { unfold exchanges in *. simpl. f_equal. exact He'. }
    split; [done|].
    intros fuel. simpl length.
    change (S (length pages) + fuel)%nat with (S (length pages + fuel)).
    rewrite (paginated_get_loop_page _ _ _ _ _ _ _ _ r (pages ++ rest) entries)
      by done.
    simpl. rewrite Hm. unfold has_cursor in Hcr.
    destruct (is_None (page_cursor r)); [done|].
    fold w1. rewrite Hloop. f_equal.
    + unfold last_cursor. destruct pages as [|r' pages']; [done|].
      change (last (r :: r' :: pages')) with (last (r' :: pages')).
      destruct (last (r' :: pages')) eqn:Hl; [done|].
      by apply last_None in Hl.
    + unfold yields, page_yield. simpl. rewrite Henv, Hm. simpl.
      by rewrite app_assoc.
    + lia.
Qed.

Lemma exchanges_app tr1 tr2 :
  exchanges (tr1 ++ tr2) = exchanges tr1 ++ exchanges tr2.
Proof. apply omap_app. Qed.

Lemma sleeps_app tr1 tr2 : sleeps (tr1 ++ tr2) = sleeps tr1 ++ sleeps tr2.
Proof. apply omap_app. Qed.

Lemma page_items_yield key r items :
  page_items key r = Some items → page_yield (Some key) r = Some items.
Proof.
  unfold page_items, page_yield, merge_page.
  destruct (envelope r) as [entries|]; [|done].
  by destruct (dict_lookup entries key) as [[| | | | |items'|]|].
Qed.

Lemma is_page_yields key pages :
  forallb (is_page key) pages = true →
  forallb (λ r, bool_decide (is_Some (page_yield (Some key) r))) pages = true ∧
  yields (Some key) pages = concat (map (λ r, default [] (page_items key r)) pages).
Proof.
  unfold yields. induction pages as [|r pages IH]; [done|]. simpl.
  intros [Hr Hall]%andb_prop. destruct (IH Hall) as [IH1 IH2].
  apply bool_decide_eq_true in Hr as [items Hr].
  rewrite (page_items_yield _ _ _ Hr), Hr, IH1, IH2. simpl.
  done.
Qed.

Lemma paginated_get_fuel (pages : list Response) last rest :
  S (length (pages ++ last :: rest))
  = (length pages + S (S (length rest)))%nat.
Proof. rewrite length_app. simpl. lia. Qed.

(** ** Blank cursors *)

Lemma lstrip_whitespace_only s : whitespace_only s → lstrip s = "".
Proof.
  unfold whitespace_only. induction s as [|c s IH]; [done|]. simpl.
  intros [Hc Hs]%Forall_cons. rewrite Hc. by apply IH.
Qed.

Lemma strip_whitespace_only s : whitespace_only s → strip s = "".
Proof. intros Hs. unfold strip. by rewrite lstrip_whitespace_only. Qed.

Lemma rstrip_empty s : rstrip s = "" → whitespace_only s.
Proof.
  unfold whitespace_only. induction s as [|c s IH]; simpl.
  - intros _. constructor.
  - destruct (rstrip s) as [|c' t]; simpl.
    + destruct (py_isspace c) eqn:Hc; [|done]. intros _. constructor; auto.
    + done.
Qed.

Lemma lstrip_suffix s :
  ∃ p, whitespace_only p ∧ s = (p ++ lstrip s)%string.
Proof.
  induction s as [|c s (p & Hp & Hs)]; simpl.
  - exists "". split; [constructor|done].
  - destruct (py_isspace c) eqn:Hc.
    + exists (String c p). split; [by constructor|].
      change (String c s = String c (p ++ lstrip s)%string). by f_equal.
    + exists "". split; [constructor|done].
Qed.

(** [s.strip() == ""] exactly for the strings made of whitespace only,
    the empty string among them. *)
Lemma strip_empty_iff s : strip s = "" ↔ whitespace_only s.
Proof.
  split; [|apply strip_whitespace_only].
  unfold strip. intros Hs%rstrip_empty.
  destruct (lstrip_suffix s) as (p & Hp & Heq). rewrite Heq.
  unfold whitespace_only in *.
  assert (Happ : ∀ a b, list_ascii_of_string (a ++ b)%string
                 = list_ascii_of_string a ++ list_ascii_of_string b).
  { clear. induction a as [|c a IH]; intros b; simpl; [done|]. by rewrite IH. }
  rewrite Happ. by apply Forall_app.
Qed.

Lemma no_next_cursor_envelope r entries :
  status_code r = 200 →
  json_body r = Some (VDict entries) →
  ok_flag entries = true →
  no_next_cursor entries →
  envelope r = Some entries ∧ page_cursor r = VNone.
Proof.
  intros Hs Hj Hok Hnc. unfold envelope, page_cursor, metadata_is_object.
  rewrite Hs, Hj, Hok. simpl.
  destruct Hnc as [Hmd|md Hmd Hc|md Hmd Hc|md s Hmd Hc Hblank];
    rewrite Hmd; try rewrite Hc; try done.
  simpl. by rewrite (strip_whitespace_only _ Hblank).
Qed.

(** ** The outcome of one page fetch *)

Lemma decode_Exit r code :
  decode r = Exit code ↔
  code = 1 ∧
  (status_code r ≠ 200 ∨
   ∃ entries, json_body r = Some (VDict entries) ∧
              dict_lookup entries "ok" = Some (VBool false)).
Proof.
  unfold decode.
  destruct (Z.eqb_spec (status_code r) 200) as [Hs|Hs]; simpl.
  2: { split; [intros [= <-]; auto | by intros [-> _]]. }
  destruct (json_body r) as [[| | | | | |entries]|];
    try (split; [done | by intros [_ [?|(? & [=] & _)]]]).
  destruct (dict_lookup entries "ok") as [ok|] eqn:Hok.
  2: { split; [done|]. intros [_ [?|(? & [= <-] & Hf)]]; [done|].
       by rewrite Hok in Hf. }
  destruct (is_False ok) eqn:Hfalse.
  - destruct ok as [|[|]| | | | |]; try done.
    split; [intros [= <-]; eauto 6|by intros [-> _]].
  - assert (Hne : ok ≠ VBool false) by (by intros ->).
    split.
    + by destruct (dict_lookup entries "response_metadata")
        as [[| | | |s|items|md]|];
        try destruct (str_contains _ _); try destruct (existsb _ _).
    + intros [_ [?|(? & [= <-] & Hf)]]; [done|].
      rewrite Hok in Hf. by injection Hf.
Qed.

(** ** Every run of the retry loop *)

Lemma get_data_loop_S fuel attempt url params w :
  get_data_loop (S fuel) attempt url params w =
  if (attempt <? MAX_RETRIES)%nat then
    match pending w with
    | [] =>
        (Raise ConnectionError,
         log (EvGet url (HEADERS w) (deref w params) None) w)
    | r :: rest =>
        let w1 := log (EvGet url (HEADERS w) (deref w params) (Some r))
                    (set_pending rest w) in
        if status_code r =? 429 then
          match headers r !! lower "Retry-After" with
          | None => (Raise KeyError, w1)
          | Some h =>
              match py_int h with
              | None => (Raise ValueError, w1)
              | Some n =>
                  let secs := n + ADDITIONAL_SLEEP_TIME in
                  if MAX_STR_DIGITS <? int_str_digits secs
                  then (Raise ValueError, w1)
                  else if (secs <? - SLEEP_LIMIT) || (SLEEP_LIMIT <? secs)
                  then (Raise OverflowError, w1)
                  else if secs <? 0 then (Raise ValueError, w1)
                  else get_data_loop fuel (attempt + 1) url params
                         (log (EvSleep secs) w1)
              end
          end
        else (Return ((attempt + 1)%nat, r), w1)
    end
  else (Exit 1, w).
Proof.
  simpl. destruct (attempt <? MAX_RETRIES)%nat; [|done].
  unfold mbind at 1, M_bind at 1, _get_data.
  destruct (pending w) as [|r rest]; [done|].
  destruct (status_code r =? 429); [|done]. simpl.
  destruct (headers r !! lower "Retry-After") as [h|]; [|done].
  destruct (py_int h) as [n|]; [|done].
  unfold mbind, M_bind, format_int, sleep.
  destruct (MAX_STR_DIGITS <? int_str_digits (n + ADDITIONAL_SLEEP_TIME));
    [done|].
  destruct ((n + ADDITIONAL_SLEEP_TIME <? - SLEEP_LIMIT)
            || (SLEEP_LIMIT <? n + ADDITIONAL_SLEEP_TIME)); [done|].
  by destruct (n + ADDITIONAL_SLEEP_TIME <? 0).
Qed.

(** How any call of the retry loop ends, and what it leaves on the
    trace: rate-limited exchanges each followed by its sleep, then at
    most one more request. *)
Lemma get_data_loop_shape fuel :
  ∀ attempt url params w,
  ∃ retries tail,
    let res := get_data_loop fuel attempt url params w in
    heap (snd res) = heap w ∧ HEADERS (snd res) = HEADERS w ∧
    trace (snd res)
    = trace w ++ retry_events url (HEADERS w) (deref w params) retries ++ tail ∧
    forallb is_retried retries = true ∧
    match fst res with
    | Return (_, r) =>
        tail = [EvGet url (HEADERS w) (deref w params) (Some r)] ∧
        status_code r ≠ 429 ∧
        (length (pending (snd res)) < length (pending w))%nat
    | Exit _ => tail = []
    | Raise _ => ∃ resp, tail = [EvGet url (HEADERS w) (deref w params) resp]
    | OutOfFuel => tail = [] ∧ (fuel < MAX_RETRIES - attempt)%nat
    end.
Proof.
  induction fuel as [|fuel IH]; intros attempt url params w.
  { exists [], []. simpl.
    destruct (Nat.ltb_spec attempt MAX_RETRIES); simpl;
      rewrite ?app_nil_r; repeat split; try done; lia. }
  rewrite get_data_loop_S.
  destruct (Nat.ltb_spec attempt MAX_RETRIES) as [Hlt|Hge].
  2: { exists [], []. simpl. by rewrite app_nil_r. }
  destruct (pending w) as [|r rest] eqn:Hp.
  { exists [], [EvGet url (HEADERS w) (deref w params) None]. simpl. eauto 10. }
  cbv zeta.
  destruct (Z.eqb_spec (status_code r) 429) as [Hs|Hs].
  2: { exists [], [EvGet url (HEADERS w) (deref w params) (Some r)]. simpl.
       repeat split; try done. lia. }
  destruct (headers r !! lower "Retry-After") as [h|] eqn:Hh.
  2: { exists [], [EvGet url (HEADERS w) (deref w params) (Some r)]. simpl.
       eauto 10. }
  destruct (py_int h) as [n|] eqn:Hn.
  2: { exists [], [EvGet url (HEADERS w) (deref w params) (Some r)]. simpl.
       eauto 10. }
  destruct (MAX_STR_DIGITS <? int_str_digits (n + ADDITIONAL_SLEEP_TIME)).
  { exists [], [EvGet url (HEADERS w) (deref w params) (Some r)]. simpl.
    eauto 10. }
  destruct ((n + ADDITIONAL_SLEEP_TIME <? - SLEEP_LIMIT)
            || (SLEEP_LIMIT <? n + ADDITIONAL_SLEEP_TIME)) eqn:Hfit.
  { exists [], [EvGet url (HEADERS w) (deref w params) (Some r)]. simpl.
    eauto 10. }
  apply orb_false_elim in Hfit as [_ Hmax%Z.ltb_ge].
  destruct (Z.ltb_spec (n + ADDITIONAL_SLEEP_TIME) 0) as [Hneg|Hpos].
  { exists [], [EvGet url (HEADERS w) (deref w params) (Some r)]. simpl.
    eauto 10. }
  set (w2 := log (EvSleep (n + ADDITIONAL_SLEEP_TIME))
               (log (EvGet url (HEADERS w) (deref w params) (Some r))
                  (set_pending rest w))).
  destruct (IH (attempt + 1)%nat url params w2)
    as (retries & tail & Hheap & Hhdr & Htr & Hall & Hend).
  assert (Hra : retry_after r = Some n).
  { unfold retry_after. rewrite Hh. exact Hn. }
  exists (r :: retries), tail. cbv zeta in *.
  split; [by rewrite Hheap|]. split; [by rewrite Hhdr|]. split.
  { rewrite Htr. unfold w2, log, set_pending, deref. simpl.
    unfold backoff at 1. rewrite Hra. simpl. by rewrite <- !app_assoc. }
  split.
  { simpl. rewrite Hall, andb_true_r. unfold is_retried, sleeps_within.
    rewrite Hra. apply andb_true_intro. split; [by apply Z.eqb_eq|].
    apply andb_true_intro. split; by apply Z.leb_le. }
  destruct (get_data_loop fuel (attempt + 1) url params w2) as [[[a r']| | |] w3];
    simpl in *; try done.
  - destruct Hend as (-> & ? & ?). repeat split; try done. lia.
  - destruct Hend as [-> ?]. split; [done|]. lia.
Qed.

(** ** Every run of one page fetch *)

Lemma cursor_chain_app expected xs ys :
  cursor_chain expected xs →
  cursor_chain (chain_end expected xs) ys →
  cursor_chain expected (xs ++ ys).
Proof.
  revert expected. induction xs as [|[ps resp] xs IH]; intros expected; simpl;
    [done|].
  intros [Hps Hxs] Hys. split; [done|]. by apply IH.
Qed.

Lemma chain_end_app expected xs ys :
  chain_end expected (xs ++ ys) = chain_end (chain_end expected xs) ys.
Proof.
  revert expected. induction xs as [|[ps resp] xs IH]; intros expected; simpl;
    [done|]. apply IH.
Qed.

Lemma cursor_chain_retries expected ps retries :
  ps !! "cursor" = expected →
  forallb is_retried retries = true →
  cursor_chain expected (map (λ r, (ps, Some r)) retries) ∧
  chain_end expected (map (λ r, (ps, Some r)) retries) = expected.
Proof.
  intros Hps. induction retries as [|r retries IH]; simpl; [done|].
  intros [Hr Hall]%andb_prop. apply andb_prop in Hr as [Hs _].
  rewrite Hs. destruct (IH Hall). by repeat split.
Qed.

(** Consecutive exchanges of a chain. *)
Lemma cursor_chain_lookup xs :
  ∀ expected i ps resp ps' resp',
  cursor_chain expected xs →
  xs !! i = Some (ps, resp) →
  xs !! S i = Some (ps', resp') →
  ps' !! "cursor" = next_expected (ps !! "cursor") resp.
Proof.
  induction xs as [|[ps0 resp0] xs IH];
    intros expected i ps resp ps' resp' Hchain Hi HSi; [done|].
  destruct Hchain as [Hps0 Hxs]. destruct i as [|i].
  - injection Hi as -> ->. destruct xs as [|[ps1 resp1] xs]; [done|].
    injection HSi as -> ->. destruct Hxs as [Hps1 _]. by rewrite Hps1, Hps0.
  - by apply (IH _ i ps resp ps' resp' Hxs).
Qed.

Lemma cursor_chain_head expected ps resp xs :
  cursor_chain expected ((ps, resp) :: xs) → ps !! "cursor" = expected.
Proof. by intros [? _]. Qed.

Lemma merge_cursor_heap_other params cursor w l :
  l ≠ params → heap (merge_cursor params cursor w) !! l = heap w !! l.
Proof.
  intros Hl. unfold merge_cursor. destruct (is_None cursor); [done|].
  simpl. by rewrite lookup_insert_ne.
Qed.

Lemma merge_cursor_deref_other params cursor w k :
  k ≠ "cursor" →
  deref (merge_cursor params cursor w) params !! k = deref w params !! k.
Proof.
  intros Hk. unfold merge_cursor. destruct (is_None cursor); [done|].
  unfold deref at 1. simpl. rewrite lookup_insert_eq. simpl.
  by rewrite lookup_insert_ne.
Qed.

Lemma merge_cursor_deref_cursor params cursor w :
  deref (merge_cursor params cursor w) params !! "cursor"
  = if is_None cursor then deref w params !! "cursor" else Some cursor.
Proof.
  unfold merge_cursor. destruct (is_None cursor); [done|].
  unfold deref at 1. simpl. rewrite lookup_insert_eq. simpl.
  by rewrite lookup_insert_eq.
Qed.

Lemma get_data_run url params w :
  ∃ events,
    let res := get_data url params w in
    heap (snd res) = heap w ∧ HEADERS (snd res) = HEADERS w ∧
    trace (snd res) = trace w ++ events ∧
    Forall (λ x, fst x = deref w params) (exchanges events) ∧
    cursor_chain (deref w params !! "cursor") (exchanges events) ∧
    match fst res with
    | Return r =>
        chain_end (deref w params !! "cursor") (exchanges events)
        = Some (page_cursor r) ∧
        (length (pending (snd res)) < length (pending w))%nat
    | OutOfFuel => False
    | _ => True
    end.
Proof.
  destruct (get_data_loop_shape MAX_RETRIES 0 url params w)
    as (retries & tail & Hheap & Hhdr & Htr & Hall & Hend).
  exists (retry_events url (HEADERS w) (deref w params) retries ++ tail).
  unfold get_data, mbind, M_bind. cbv zeta in *.
  destruct (cursor_chain_retries (deref w params !! "cursor") (deref w params)
              retries eq_refl Hall) as [Hchain Hce].
  assert (Hfa : Forall (λ x : exchange, x.1 = deref w params)
                  (map (λ r, (deref w params, Some r)) retries)).
  { clear. induction retries; by constructor. }
  rewrite exchanges_app, exchanges_retry_events.
  destruct (get_data_loop MAX_RETRIES 0 url params w) as [[[a r]| | |] w1];
    simpl in *.
  - destruct Hend as (-> & Hs & Hlen). repeat split; try done.
    + apply Forall_app. split; [done|]. by repeat constructor.
    + apply cursor_chain_app; [done|]. rewrite Hce. by simpl.
    + rewrite chain_end_app, Hce. simpl.
      by destruct (Z.eqb_spec (status_code r) 429).
  - subst tail. change (exchanges []) with (@nil exchange).
    rewrite !app_nil_r in *. by repeat split.
  - destruct Hend as [resp ->]. repeat split; try done.
    + apply Forall_app. split; [done|]. by repeat constructor.
    + apply cursor_chain_app; [done|]. rewrite Hce. by simpl.
  - destruct Hend as [_ Hlt]. unfold MAX_RETRIES in Hlt. exfalso. lia.
Qed.

(** ** Every run of the page loop *)

Lemma decode_OutOfFuel r : decode r ≠ OutOfFuel.
Proof.
  unfold decode. destruct (status_code r =? 200); [simpl|done].
  destruct (json_body r) as [[| | | | | |entries]|]; try done.
  destruct (dict_lookup entries "ok") as [ok|]; [|done].
  destruct (is_False ok); [done|].
  by destruct (dict_lookup entries "response_metadata")
    as [[| | | |s|items|md]|];
    try destruct (str_contains _ _); try destruct (existsb _ _).
Qed.

Lemma merge_page_OutOfFuel combine_key entries :
  merge_page combine_key entries ≠ OutOfFuel.
Proof.
  unfold merge_page. destruct combine_key as [k|]; [|done].
  destruct (dict_lookup entries k) as [v|]; [|done].
  by destruct (iterate v).
Qed.

(** What any run of the loop, successful or not, does to the world: it
    only appends to the trace; of the heap it touches nothing but the
    [cursor] entry of the dict at [params]; every request it sends
    carries the caller's parameters apart from [cursor]; the [cursor]
    values sent form a chain; and it stops before its fuel is spent. *)
Lemma paginated_get_loop_run url params combine_key fuel :
  ∀ cursor result page_count w,
  ∃ events,
    let res := paginated_get_loop fuel url params combine_key cursor result
                 page_count w in
    trace (snd res) = trace w ++ events ∧
    (∀ l, l ≠ params → heap (snd res) !! l = heap w !! l) ∧
    (∀ k, k ≠ "cursor" → deref (snd res) params !! k = deref w params !! k) ∧
    Forall (λ x, ∀ k, k ≠ "cursor" → fst x !! k = deref w params !! k)
      (exchanges events) ∧
    cursor_chain (deref (merge_cursor params cursor w) params !! "cursor")
      (exchanges events) ∧
    (fst res = OutOfFuel → (fuel ≤ length (pending w))%nat).
Proof.
  induction fuel as [|fuel IH]; intros cursor result page_count w.
  { exists []. simpl. rewrite app_nil_r. repeat split; try done.
    intros _. lia. }
  set (w0 := merge_cursor params cursor w).
  destruct (get_data_run url params w0)
    as (events & Hheap & Hhdr & Htr & Hfa & Hchain & Hend).
  cbv zeta in Hheap, Hhdr, Htr, Hend.
  pose proof (get_at_cursor_decode url params cursor w) as Hget.
  fold w0 in Hget.
  assert (Hother : ∀ w1, heap w1 = heap w0 →
            (∀ l, l ≠ params → heap w1 !! l = heap w !! l) ∧
            (∀ k, k ≠ "cursor" → deref w1 params !! k = deref w params !! k)).
  { intros w1 Hw1. split.
    - intros l Hl. rewrite Hw1. by apply merge_cursor_heap_other.
    - intros k Hk. unfold deref at 1. rewrite Hw1.
      by apply merge_cursor_deref_other. }
  assert (Hfa' : Forall (λ x : exchange,
              ∀ k, k ≠ "cursor" → x.1 !! k = deref w params !! k)
            (exchanges events)).
  { eapply Forall_impl; [exact Hfa|]. intros x -> k Hk.
    by apply merge_cursor_deref_other. }
  assert (Htr' : ∀ w1, trace w1 = trace w0 ++ events →
                 trace w1 = trace w ++ events).
  { intros w1 ->. unfold w0. by rewrite merge_cursor_trace. }
  destruct (get_data url params w0) as [[r| | |] w1] eqn:Hdata;
    simpl in Hheap, Hhdr, Htr, Hend; try done.
  2, 3: exists events;
    rewrite (paginated_get_loop_stop _ _ _ _ _ _ _ _ _ w1 Hget) by done;
    simpl; destruct (Hother w1 Hheap); by repeat split; auto.
  destruct Hend as [Hce Hlen].
  destruct (decode r) as [[c d]| | |] eqn:Hdec.
  2, 3, 4: exists events;
    rewrite (paginated_get_loop_stop _ _ _ _ _ _ _ _ _ w1 Hget) by done;
    simpl; destruct (Hother w1 Hheap); repeat split; auto; try done.
  2: { by destruct (decode_OutOfFuel r). }
  destruct (decode_Return _ _ _ Hdec) as (_ & _ & -> & entries & ->).
  rewrite (paginated_get_loop_step _ _ _ _ _ _ _ _ _ _ _ Hget).
  destruct (Hother w1 Hheap) as [Hl1 Hk1].
  destruct (merge_page combine_key entries) as [xs| | |] eqn:Hm;
    try (exists events; simpl; repeat split; auto; done);
    [|by destruct (merge_page_OutOfFuel combine_key entries)].
  destruct (is_None (page_cursor r)) eqn:Hnone;
    [exists events; simpl; repeat split; auto; done|].
  destruct (IH (page_cursor r) (result ++ xs) (page_count + 1)%nat w1)
    as (events' & Htr2 & Hl2 & Hk2 & Hfa2 & Hchain2 & Hfuel2).
  cbv zeta in Htr2, Hl2, Hk2, Hfuel2.
  rewrite merge_cursor_deref_cursor, Hnone in Hchain2.
  exists (events ++ events'). cbv zeta.
  split; [by rewrite Htr2, (Htr' _ Htr), app_assoc|].
  split; [intros l Hl; by rewrite Hl2, Hl1|].
  split; [intros k Hk; by rewrite Hk2, Hk1|].
  rewrite exchanges_app. split.
  { apply Forall_app. split; [done|]. eapply Forall_impl; [exact Hfa2|].
    intros x Hx k Hk. by rewrite Hx, Hk1. }
  split.
  { apply cursor_chain_app; [done|]. by rewrite Hce. }
  intros Hoof. specialize (Hfuel2 Hoof).
  unfold w0 in Hlen. rewrite merge_cursor_pending in Hlen. lia.
Qed.

(** [paginated_get] always ends on its own: the bound on the loop is
    never what stops it. *)
Lemma paginated_get_total url params combine_key w :
  fst (paginated_get url params combine_key w) ≠ OutOfFuel.
Proof.
  unfold paginated_get.
  destruct (paginated_get_loop_run url params combine_key
              (S (length (pending w))) VNone [] 0%nat w)
    as (events & _ & _ & _ & _ & _ & Hfuel).
  intros Hoof. specialize (Hfuel Hoof). lia.
Qed.

(** ** Runs over pages delivered through rate limits *)

Lemma sleeps_retry_events url hdrs ps retries :
  sleeps (retry_events url hdrs ps retries) = map backoff retries.
Proof.
  induction retries as [|r retries IH]; [done|].
  unfold sleeps, retry_events in *. simpl. f_equal. exact IH.
Qed.

Lemma paginated_get_loop_delivery fuel url params combine_key cursor result
    page_count w d rest entries :
  pending w = limits d ++ page d :: rest →
  forallb is_retried (limits d) = true →
  (length (limits d) < MAX_RETRIES)%nat →
  envelope (page d) = Some entries →
  paginated_get_loop (S fuel) url params combine_key cursor result page_count w =
  let w1 := fetched url params (limits d) (page d) rest
              (merge_cursor params cursor w) in
  match merge_page combine_key entries with
  | Return xs =>
      if is_None (page_cursor (page d)) then (Return (result ++ xs), w1)
      else paginated_get_loop fuel url params combine_key (page_cursor (page d))
             (result ++ xs) (page_count + 1) w1
  | Exit code => (Exit code, w1)
  | Raise e => (Raise e, w1)
  | OutOfFuel => (OutOfFuel, w1)
  end.
Proof.
  intros Hp Hall Hlen Henv.
  apply paginated_get_loop_step.
  rewrite (get_at_cursor_fetch _ _ _ _ (limits d) (page d) rest); try done.
  - by rewrite (decode_envelope _ _ Henv).
  - apply envelope_Some in Henv as (-> & _). lia.
Qed.

Lemma well_delivered_inv combine_key d :
  well_delivered combine_key d = true →
  forallb is_retried (limits d) = true ∧
  (length (limits d) < MAX_RETRIES)%nat ∧
  ∃ entries xs, envelope (page d) = Some entries ∧
                merge_page combine_key entries = Return xs ∧
                page_yield combine_key (page d) = Some xs.
Proof.
  unfold well_delivered. intros [[Hall Hlen]%andb_prop Hy]%andb_prop.
  apply bool_decide_eq_true in Hlen. apply bool_decide_eq_true in Hy as [xs Hxs].
  split; [by apply rate_limited_retried|]. split; [done|].
  pose proof Hxs as Hxs'. unfold page_yield in Hxs.
  destruct (envelope (page d)) as [entries|]; [|done].
  destruct (merge_page combine_key entries) as [xs'| | |] eqn:Hm; try done.
  injection Hxs as ->. by exists entries, xs.
Qed.

Lemma paginated_get_loop_deliveries url params combine_key ds :
  ∀ cursor result page_count w rest,
  pending w = delivered ds ++ rest →
  forallb (well_delivered combine_key) ds = true →
  forallb has_cursor (map page ds) = true →
  ∃ w' events,
    pending w' = rest ∧
    trace w' = trace w ++ events ∧
    map snd (exchanges events) = map Some (delivered ds) ∧
    sleeps events = map backoff (concat (map limits ds)) ∧
    ∀ fuel,
      paginated_get_loop (length ds + fuel) url params combine_key cursor
        result page_count w =
      paginated_get_loop fuel url params combine_key
        (last_cursor cursor (map page ds))
        (result ++ yields combine_key (map page ds))
        (page_count + length ds) w'.
Proof.
  induction ds as [|d ds IH];
    intros cursor result page_count w rest Hp Hw Hc; simpl in Hp, Hw, Hc.
  - exists w, []. rewrite app_nil_r. repeat split; try done.
    intros fuel. unfold yields, last_cursor. simpl.
    by rewrite app_nil_r, Nat.add_0_r.
  - apply andb_prop in Hw as [Hd Hw]. apply andb_prop in Hc as [Hcd Hc].
    destruct (well_delivered_inv _ _ Hd)
      as (Hall & Hlen & entries & xs & Henv & Hm & Hy).
    unfold delivered in Hp. simpl in Hp. rewrite <- !app_assoc in Hp.
    simpl in Hp. fold (delivered ds) in Hp.
    set (w0 := merge_cursor params cursor w).
    set (w1 := fetched url params (limits d) (page d) (delivered ds ++ rest) w0).
    destruct (IH (page_cursor (page d)) (result ++ xs) (page_count + 1)%nat
                w1 rest)
      as (w' & events & Hp' & Ht' & He' & Hs' & Hloop);
      [reflexivity | done | done |].
    set (events1 := retry_events url (HEADERS w) (deref w0 params) (limits d)
                    ++ [EvGet url (HEADERS w) (deref w0 params) (Some (page d))]).
    exists w', (events1 ++ events).
    split; [done|]. split.
    { rewrite Ht'. unfold w1, fetched, events1. simpl. unfold w0.
      rewrite merge_cursor_trace, merge_cursor_headers.
      by rewrite <- !app_assoc. }
    split.
    { rewrite exchanges_app, map_app, He'. unfold events1.
      rewrite exchanges_app, exchanges_retry_events, map_app, map_map.
      unfold delivered. simpl. rewrite !map_app. simpl.
      by rewrite <- !app_assoc. }
    split.
    { rewrite sleeps_app, Hs'. unfold events1.
      rewrite sleeps_app, sleeps_retry_events. simpl.
      by rewrite app_nil_r, map_app. }
    intros fuel. simpl length.
    change (S (length ds) + fuel)%nat with (S (length ds + fuel)).
    rewrite (paginated_get_loop_delivery _ _ _ _ _ _ _ _ d
               (delivered ds ++ rest) entries) by done.
    cbv zeta. rewrite Hm. unfold has_cursor in Hcd.
    destruct (is_None (page_cursor (page d))); [done|].
    fold w0 w1. rewrite Hloop. f_equal.
    + unfold last_cursor. simpl. destruct (map page ds) as [|r' pages'] eqn:Hmp;
        [done|].
      change (last (page d :: r' :: pages')) with (last (r' :: pages')).
      destruct (last (r' :: pages')) eqn:Hl; [done|].
      by apply last_None in Hl.
    + unfold yields. simpl. rewrite Hy. simpl. by rewrite app_assoc.
    + lia.
Qed.

Lemma length_delivered ds : (length ds ≤ length (delivered ds))%nat.
Proof.
  unfold delivered. induction ds as [|d ds IH]; simpl; [lia|].
  rewrite !length_app. simpl. lia.
Qed.

(** * Part III: the claims *)

(** C1 (as amended).  For the responses 429 with Retry-After 3, 429 with
    Retry-After 1, then 200, [get_data] returns the 200 response after
    exactly two sleeps, of 5 and of 3 time units, and nothing else but the
    three requests happens.  The attempt counter, started at 0, ends at 3:
    it is incremented after every request, the successful one included. *)
Theorem get_data_rate_limit_recovery url params w r1 r2 r3 rest :
  pending w = r1 :: r2 :: r3 :: rest →
  status_code r1 = 429 → headers r1 !! "retry-after" = Some "3" →
  status_code r2 = 429 → headers r2 !! "retry-after" = Some "1" →
  status_code r3 = 200 →
  let get r := EvGet url (HEADERS w) (deref w params) (Some r) in
  let w' := mkWorld (heap w) (HEADERS w) rest
              (trace w ++ [get r1; EvSleep 5; get r2; EvSleep 3; get r3]) in
  get_data_loop MAX_RETRIES 0 url params w = (Return (3%nat, r3), w') ∧
  get_data url params w = (Return r3, w') ∧
  sleeps (trace w') = sleeps (trace w) ++ [5; 3].
Proof.
  intros Hp Hs1 Hh1 Hs2 Hh2 Hs3 get w'.
  assert (Hall : forallb is_retried [r1; r2] = true).
  { unfold forallb, is_retried, sleeps_within, retry_after.
    change (lower "Retry-After") with "retry-after".
    by rewrite Hs1, Hh1, Hs2, Hh2. }
  assert (Hb1 : backoff r1 = 5).
  { unfold backoff, retry_after.
    change (lower "Retry-After") with "retry-after". by rewrite Hh1. }
  assert (Hb2 : backoff r2 = 3).
  { unfold backoff, retry_after.
    change (lower "Retry-After") with "retry-after". by rewrite Hh2. }
  assert (Hloop : get_data_loop MAX_RETRIES 0 url params w
                  = (Return (3%nat, r3), w')).
  { rewrite (get_data_loop_retries [r1; r2] _ _ _ _ _ r3 rest);
      try done; try (unfold MAX_RETRIES; simpl; lia);
      try (rewrite Hs3; lia).
    unfold w', get. simpl. by rewrite Hb1, Hb2. }
  split; [done|]. split.
  - unfold get_data. by rewrite (bind_Return _ _ _ _ _ Hloop).
  - unfold w', sleeps. simpl. by rewrite omap_app.
Qed.

(** The recovery on the history endpoint. *)
Lemma get_data_rate_limit_recovery_example :
  let w := sample_world [rate_limit_response "3"; rate_limit_response "1";
                         json_response 200 (history_page [] VNone)] in
  fst (get_data history_url 1%positive w)
  = Return (json_response 200 (history_page [] VNone)) ∧
  sleeps (trace (snd (get_data history_url 1%positive w))) = [5; 3].
Proof.
  intros w.
  destruct (get_data_rate_limit_recovery history_url 1%positive w
              (rate_limit_response "3") (rate_limit_response "1")
              (json_response 200 (history_page [] VNone)) [])
    as (_ & Hget & Hsl); try reflexivity.
  rewrite Hget. split; [reflexivity | exact Hsl].
Defined.

(** C1 (as stated) fails: after 429, 429, 200 the counter is not 2. *)
Lemma attempt_counter_counts_every_request :
  ¬ ∃ w',
    get_data_loop MAX_RETRIES 0 history_url 1%positive
      (sample_world [rate_limit_response "3"; rate_limit_response "1";
                     json_response 200 (history_page [] VNone)])
    = (Return (2%nat, json_response 200 (history_page [] VNone)), w').
Proof. intros [w' H]. vm_compute in H. discriminate H. Qed.

(** C2.  With [MAX_RETRIES = 10], ten consecutive rate-limit responses
    make [get_data] stop with [sys.exit(1)]: exactly ten requests are on
    the trace, whatever the transport holds after the tenth response is
    left untouched, and no value is returned.  The exit unwinds the whole
    fetch, wherever in the fetch the ten responses come: after any
    number of pages, each of them delivered behind fewer than ten rate
    limits, [paginated_get] ends with [sys.exit(1)] as well, having sent
    one request per response up to the tenth rate limit and none after;
    it returns nothing of the pages it had merged.  A rate limit is a
    429 response whose Retry-After is an integer that leaves a time to
    sleep from 0 to [SLEEP_MAX]. *)
Theorem get_data_retry_exhaustion url params w retries rest :
  pending w = retries ++ rest →
  length retries = 10%nat →
  forallb is_rate_limited retries = true →
  let events := retry_events url (HEADERS w) (deref w params) retries in
  let w' := mkWorld (heap w) (HEADERS w) rest (trace w ++ events) in
  MAX_RETRIES = 10%nat ∧
  get_data url params w = (Exit 1, w') ∧
  length (exchanges events) = 10%nat ∧
  exchanges events = map (λ r, (deref w params, Some r)) retries ∧
  (∀ combine_key, paginated_get url params combine_key w = (Exit 1, w')) ∧
  ∀ combine_key ds w0,
    pending w0 = delivered ds ++ retries ++ rest →
    forallb (well_delivered combine_key) ds = true →
    forallb has_cursor (map page ds) = true →
    ∃ w1 events1,
      paginated_get url params combine_key w0 = (Exit 1, w1) ∧
      pending w1 = rest ∧
      trace w1 = trace w0 ++ events1 ∧
      map snd (exchanges events1) = map Some (delivered ds ++ retries) ∧
      sleeps events1 = map backoff (concat (map limits ds) ++ retries).
Proof.
  intros Hp Hlen Hall%rate_limited_retried events w'.
  assert (Hexit : ∀ w2, pending w2 = retries ++ rest →
            get_data url params w2
            = (Exit 1, mkWorld (heap w2) (HEADERS w2) rest
                         (trace w2 ++ retry_events url (HEADERS w2)
                                        (deref w2 params) retries))).
  { intros w2 Hp2. unfold get_data, mbind, M_bind.
    rewrite (get_data_loop_gives_up retries _ _ _ _ _ rest);
      try done; unfold MAX_RETRIES; lia. }
  split; [done|]. split; [by apply Hexit|].
  unfold events. rewrite exchanges_retry_events, length_map.
  split; [done|]. split; [done|]. split.
  { intros combine_key. unfold paginated_get.
    rewrite (paginated_get_loop_stop _ _ _ _ _ _ _ _ (Exit 1) w'); try done.
    rewrite get_at_cursor_decode. unfold merge_cursor. simpl.
    by rewrite (Hexit w Hp). }
  intros combine_key ds w0 Hp0 Hds Hc.
  destruct (paginated_get_loop_deliveries url params combine_key ds VNone []
              0%nat w0 (retries ++ rest) Hp0 Hds Hc)
    as (w1 & events1 & Hp1 & Ht1 & He1 & Hs1 & Hloop).
  set (w2 := merge_cursor params (last_cursor VNone (map page ds)) w1).
  assert (Hp2 : pending w2 = retries ++ rest).
  { unfold w2. by rewrite merge_cursor_pending. }
  exists (mkWorld (heap w2) (HEADERS w2) rest
            (trace w2 ++ retry_events url (HEADERS w2) (deref w2 params) retries)),
    (events1 ++ retry_events url (HEADERS w2) (deref w2 params) retries).
  split.
  { unfold paginated_get.
    pose proof (length_delivered ds) as Hld.
    replace (S (length (pending w0)))
      with (length ds + S (length (pending w0) - length ds))%nat
      by (rewrite Hp0, length_app; lia).
    rewrite Hloop.
    rewrite (paginated_get_loop_stop _ _ _ _ _ _ _ _ (Exit 1)
               (mkWorld (heap w2) (HEADERS w2) rest
                  (trace w2 ++ retry_events url (HEADERS w2) (deref w2 params)
                                 retries))); try done.
    rewrite get_at_cursor_decode. fold w2. by rewrite (Hexit w2 Hp2). }
  split; [done|]. split.
  { simpl. unfold w2 at 1. by rewrite merge_cursor_trace, Ht1, <- app_assoc. }
  split.
  { rewrite exchanges_app, !map_app, He1, exchanges_retry_events, map_map.
    by simpl. }
  by rewrite sleeps_app, Hs1, sleeps_retry_events, map_app.
Qed.

(** Ten rate-limit responses and a page behind them: the page is never
    asked for.  The same ten after a first page: the fetch exits and the
    messages of the first page are lost with it. *)
Lemma get_data_retry_exhaustion_example :
  let limits10 := replicate 10 (rate_limit_response "1") in
  let page1 := json_response 200 (history_page [VStr "m1"] (VStr "c1")) in
  let page2 := json_response 200 (history_page [] VNone) in
  let w := sample_world (limits10 ++ [page2]) in
  fst (get_data history_url 1%positive w) = Exit 1 ∧
  pending (snd (get_data history_url 1%positive w)) = [page2] ∧
  fst (paginated_get history_url 1%positive (Some "messages")
         (sample_world (page1 :: limits10 ++ [page2]))) = Exit 1.
Proof.
  intros limits10 page1 page2 w.
  destruct (get_data_retry_exhaustion history_url 1%positive w limits10 [page2]
              eq_refl eq_refl eq_refl)
    as (_ & Hget & _ & _ & _ & Hfetch).
  rewrite Hget. split; [reflexivity|]. split; [reflexivity|].
  destruct (Hfetch (Some "messages") [mkDelivery [] page1]
              (sample_world (page1 :: limits10 ++ [page2]))
              eq_refl eq_refl eq_refl)
    as (w1 & events1 & Hrun & _).
  rewrite Hrun. reflexivity.
Defined.

(** C3.  When the server emits pages [pages ++ [last]], every page but
    the last carrying a cursor and the last carrying none,
    [paginated_get] makes exactly one request per page, in order, takes
    nothing further from the transport, and returns the page item lists
    concatenated in page order and, within a page, in the page's own
    order; so the result is as long as the pages' sizes summed.  A single
    page with no items is fetched once and yields the empty list. *)
Theorem paginated_get_completeness url params key w pages last rest :
  pending w = pages ++ last :: rest →
  forallb (is_page key) (pages ++ [last]) = true →
  forallb has_cursor pages = true →
  page_cursor last = VNone →
  let items := map (λ r, default [] (page_items key r)) (pages ++ [last]) in
  ∃ w' events,
    paginated_get url params (Some key) w = (Return (concat items), w') ∧
    pending w' = rest ∧
    trace w' = trace w ++ events ∧
    map snd (exchanges events) = map Some (pages ++ [last]) ∧
    length (exchanges events) = S (length pages) ∧
    length (concat items) = sum_list (map length items).
Proof.
  intros Hp Hall Hc Hlast items.
  rewrite forallb_app in Hall. apply andb_prop in Hall as [Hpages Hl].
  simpl in Hl. rewrite andb_true_r in Hl.
  apply bool_decide_eq_true in Hl as [xs Hxs].
  destruct (is_page_yields _ _ Hpages) as [Hy Hys].
  destruct (paginated_get_loop_pages url params (Some key) pages VNone [] 0%nat
              w (last :: rest) Hp Hy Hc)
    as (w1 & events & Hp1 & Hh1 & Ht1 & He1 & Hs1 & Hloop).
  pose proof (page_items_yield _ _ _ Hxs) as Hyl.
  unfold page_yield in Hyl.
  destruct (envelope last) as [entries|] eqn:Henv; [|done].
  destruct (merge_page (Some key) entries) as [xs'| | |] eqn:Hm; try done.
  injection Hyl as ->.
  exists (page_fetched url params (last_cursor VNone pages) last rest w1),
    (events ++ [EvGet url (HEADERS w1)
                  (deref (merge_cursor params (last_cursor VNone pages) w1) params)
                  (Some last)]).
  assert (Hex : map snd (exchanges (events ++ [EvGet url (HEADERS w1)
                  (deref (merge_cursor params (last_cursor VNone pages) w1) params)
                  (Some last)])) = map Some (pages ++ [last])).
  { by rewrite exchanges_app, !map_app, He1. }
  split.
  { unfold paginated_get. rewrite Hp, paginated_get_fuel, Hloop.
    rewrite (paginated_get_loop_page _ _ _ _ _ _ _ _ last rest entries)
      by done.
    cbv zeta. rewrite Hm, Hlast. simpl. do 2 f_equal.
    unfold items. rewrite map_app, concat_app, Hys. simpl.
    by rewrite Hxs, app_nil_r. }
  split; [done|]. split.
  { unfold page_fetched, fetched. simpl.
    rewrite merge_cursor_trace, merge_cursor_headers, Ht1.
    by rewrite <- app_assoc. }
  split; [done|]. split.
  { rewrite <- (length_map snd), Hex, length_map, length_app. simpl. lia. }
  clear. induction items as [|x items IH]; [done|].
  simpl. rewrite length_app. by rewrite IH.
Qed.

(** Three pages, the middle one empty, the last one with a blank cursor. *)
Lemma paginated_get_completeness_example :
  let pages := [json_response 200 (history_page [VStr "m1"; VStr "m2"] (VStr "c1"));
                json_response 200 (history_page [] (VStr "c2"))] in
  let last := json_response 200 (history_page [VStr "m3"] (VStr " ")) in
  fst (paginated_get history_url 1%positive (Some "messages")
         (sample_world (pages ++ [last])))
  = Return [VStr "m1"; VStr "m2"; VStr "m3"].
Proof.
  intros pages last.
  destruct (paginated_get_completeness history_url 1%positive "messages"
              (sample_world (pages ++ [last])) pages last []
              eq_refl eq_refl eq_refl eq_refl)
    as (w' & events & Hget & _).
  rewrite Hget. reflexivity.
Defined.

(** C4 (as amended).  Let [r] be the response [get_data] ends up with,
    after any rate-limited attempts ([is_rate_limited]: the 429
    responses whose Retry-After is an integer that leaves a time to
    sleep from 0 to [SLEEP_MAX]).  [get_at_cursor] stops with
    [sys.exit(1)] exactly when the status of [r] is not 200 or its payload
    is an object whose [ok] is [False].  For every 200 response whose
    payload is an object with an [ok] other than [False] (and whose
    [response_metadata], when present, is an object) it returns the
    normalised next cursor, possibly [None], together with the payload.
    Either way the world is the one [get_data] left. *)
Theorem get_at_cursor_outcome url params cursor w retries r rest :
  pending w = retries ++ r :: rest →
  forallb is_rate_limited retries = true →
  (length retries < MAX_RETRIES)%nat →
  status_code r ≠ 429 →
  let w' := fetched url params retries r rest (merge_cursor params cursor w) in
  snd (get_at_cursor url params cursor w) = w' ∧
  (fst (get_at_cursor url params cursor w) = Exit 1 ↔
   status_code r ≠ 200 ∨
   ∃ entries, json_body r = Some (VDict entries) ∧
              dict_lookup entries "ok" = Some (VBool false)) ∧
  (∀ code, fst (get_at_cursor url params cursor w) = Exit code → code = 1) ∧
  (∀ entries,
     envelope r = Some entries →
     get_at_cursor url params cursor w
     = (Return (page_cursor r, VDict entries), w')).
Proof.
  intros Hp Hall%rate_limited_retried Hlen Hs w'.
  rewrite (get_at_cursor_fetch _ _ _ _ retries r rest) by done. simpl.
  split; [done|]. split; [|split].
  - rewrite decode_Exit. tauto.
  - by intros code [-> _]%decode_Exit.
  - intros entries Henv. by rewrite (decode_envelope _ _ Henv).
Qed.

(** A second page that comes in after one rate-limited attempt. *)
Lemma get_at_cursor_outcome_example :
  get_at_cursor history_url 1%positive (VStr "c1")
    (sample_world [rate_limit_response "1";
                   json_response 200 (history_page [VStr "m"] (VStr "c2"))])
  = (Return (VStr "c2", VDict (history_page [VStr "m"] (VStr "c2"))),
     fetched history_url 1%positive [rate_limit_response "1"]
       (json_response 200 (history_page [VStr "m"] (VStr "c2"))) []
       (merge_cursor 1%positive (VStr "c1")
          (sample_world [rate_limit_response "1";
             json_response 200 (history_page [VStr "m"] (VStr "c2"))]))).
Proof.
  assert (Hlen : (length [rate_limit_response "1"] < MAX_RETRIES)%nat)
    by (unfold MAX_RETRIES; simpl; lia).
  assert (Hs : status_code (json_response 200
                  (history_page [VStr "m"] (VStr "c2"))) ≠ 429)
    by (simpl; lia).
  destruct (get_at_cursor_outcome history_url 1%positive (VStr "c1")
              (sample_world [rate_limit_response "1";
                 json_response 200 (history_page [VStr "m"] (VStr "c2"))])
              [rate_limit_response "1"]
              (json_response 200 (history_page [VStr "m"] (VStr "c2"))) []
              eq_refl eq_refl Hlen Hs)
    as (_ & _ & _ & Hret).
  exact (Hret _ eq_refl).
Defined.

(** C4 (as stated) fails: a 201 response is a 2xx response, its payload
    says ok, and [get_at_cursor] exits all the same. *)
Lemma get_at_cursor_rejects_201 :
  let r := json_response 201 (history_page [VStr "m"] VNone) in
  (200 ≤ status_code r < 300) ∧
  ok_flag (history_page [VStr "m"] VNone) = true ∧
  fst (get_at_cursor history_url 1%positive VNone (sample_world [r])) = Exit 1.
Proof. intros r. split; [simpl; lia|]. split; reflexivity. Qed.

(** A 200 payload that says ok but whose [response_metadata] is [null]:
    the [in] test on it raises, which is why the return half of C4 asks
    for [response_metadata] to be an object when it is there. *)
Lemma get_at_cursor_null_metadata :
  fst (get_at_cursor history_url 1%positive VNone
         (sample_world
            [json_response 200
               [("ok", VBool true); ("response_metadata", VNone)]]))
  = Raise TypeError.
Proof. reflexivity. Qed.

(** C5.  A page that is otherwise successful but lacks the item key makes
    [paginated_get] stop with [sys.exit(1)], wherever in the run it comes:
    the [KeyError] of [data[combine_key]] is caught and turned into the
    exit.  Nothing is returned, neither the items of the pages before it
    nor an empty list, and no later response is requested. *)
Theorem paginated_get_missing_key url params key w pages bad rest entries :
  pending w = pages ++ bad :: rest →
  forallb (is_page key) pages = true →
  forallb has_cursor pages = true →
  envelope bad = Some entries →
  dict_lookup entries key = None →
  ∃ w',
    paginated_get url params (Some key) w = (Exit 1, w') ∧
    pending w' = rest.
Proof.
  intros Hp Hall Hc Henv Hkey.
  destruct (is_page_yields _ _ Hall) as [Hy _].
  destruct (paginated_get_loop_pages url params (Some key) pages VNone [] 0%nat
              w (bad :: rest) Hp Hy Hc)
    as (w1 & events & Hp1 & _ & _ & _ & _ & Hloop).
  exists (page_fetched url params (last_cursor VNone pages) bad rest w1).
  split; [|done].
  unfold paginated_get. rewrite Hp, paginated_get_fuel, Hloop.
  rewrite (paginated_get_loop_page _ _ _ _ _ _ _ _ bad rest entries) by done.
  unfold merge_page. by rewrite Hkey.
Qed.

(** A good page, then a payload without [messages]. *)
Lemma paginated_get_missing_key_example :
  let pages := [json_response 200 (history_page [VStr "m1"] (VStr "c1"))] in
  let bad := json_response 200 [("ok", VBool true)] in
  fst (paginated_get history_url 1%positive (Some "messages")
         (sample_world (pages ++ [bad])))
  = Exit 1.
Proof.
  intros pages bad.
  destruct (paginated_get_missing_key history_url 1%positive "messages"
              (sample_world (pages ++ [bad])) pages bad [] [("ok", VBool true)]
              eq_refl eq_refl eq_refl eq_refl eq_refl)
    as (w' & Hget & _).
  rewrite Hget. reflexivity.
Defined.

(** C6.  Whichever way a successful page says that no page follows -
    no [response_metadata], no [next_cursor] in it, or a [next_cursor]
    that is null, empty or whitespace only - [get_at_cursor] returns
    [None] as the next cursor, with the payload, and leaves the same
    world; the loop of [paginated_get] then merges the page and returns
    without another request: the responses still pending stay pending. *)
Theorem get_at_cursor_blank_cursor url params cursor w r rest entries :
  pending w = r :: rest →
  status_code r = 200 →
  json_body r = Some (VDict entries) →
  ok_flag entries = true →
  no_next_cursor entries →
  let w' := page_fetched url params cursor r rest w in
  get_at_cursor url params cursor w = (Return (VNone, VDict entries), w') ∧
  pending w' = rest ∧
  ∀ fuel combine_key result page_count items,
    merge_page combine_key entries = Return items →
    paginated_get_loop (S fuel) url params combine_key cursor result
      page_count w
    = (Return (result ++ items), w').
Proof.
  intros Hp Hs Hj Hok Hnc w'.
  destruct (no_next_cursor_envelope r entries Hs Hj Hok Hnc) as [Henv Hcur].
  split; [|split; [done|]].
  - rewrite (get_at_cursor_fetch _ _ _ _ [] r rest); try done.
    + by rewrite (decode_envelope _ _ Henv), Hcur.
    + unfold MAX_RETRIES. simpl. lia.
    + rewrite Hs. lia.
  - intros fuel combine_key result page_count items Hm.
    rewrite (paginated_get_loop_page _ _ _ _ _ _ _ _ r rest entries) by done.
    cbv zeta. by rewrite Hm, Hcur.
Qed.

(** A cursor of two spaces ends the fetch although a response is
    pending. *)
Lemma get_at_cursor_blank_cursor_example :
  let blank := json_response 200 (history_page [VStr "m1"] (VStr "  ")) in
  let later := json_response 200 (history_page [VStr "m2"] VNone) in
  fst (get_at_cursor history_url 1%positive VNone (sample_world [blank; later]))
  = Return (VNone, VDict (history_page [VStr "m1"] (VStr "  "))) ∧
  paginated_get history_url 1%positive (Some "messages")
    (sample_world [blank; later])
  = (Return [VStr "m1"],
     page_fetched history_url 1%positive VNone blank [later]
       (sample_world [blank; later])).
Proof.
  intros blank later.
  assert (Hblank : no_next_cursor (history_page [VStr "m1"] (VStr "  "))).
  { apply (cursor_blank _ [("next_cursor", VStr "  ")] "  ");
      [reflexivity | reflexivity |].
    repeat constructor. }
  destruct (get_at_cursor_blank_cursor history_url 1%positive VNone
              (sample_world [blank; later]) blank [later]
              (history_page [VStr "m1"] (VStr "  "))
              eq_refl eq_refl eq_refl eq_refl Hblank)
    as (Hget & _ & Hloop).
  split.
  - by rewrite Hget.
  - exact (Hloop 2%nat (Some "messages") [] 0%nat [VStr "m1"] eq_refl).
Defined.

(** C7 (as amended).  In one call of [paginated_get], whatever the
    server answers and however the call ends: the first request carries
    the caller's parameters exactly as they were handed in - the loop adds
    no [cursor] to it, so it has one only if the caller's dict already
    held one; a request that follows a rate-limit response carries the
    [cursor] of the request before it (so every attempt at the first
    page is sent alike); and a request that follows any other response -
    a page, since a failure ends the call - carries exactly the cursor of
    that page. *)
Theorem paginated_get_request_cursors url params combine_key w :
  ∃ events,
    trace (snd (paginated_get url params combine_key w)) = trace w ++ events ∧
    (∀ ps resp,
       exchanges events !! 0%nat = Some (ps, resp) →
       ps = deref w params ∧
       (deref w params !! "cursor" = None → ps !! "cursor" = None)) ∧
    (∀ i ps r ps' resp',
       exchanges events !! i = Some (ps, Some r) →
       exchanges events !! S i = Some (ps', resp') →
       ps' !! "cursor"
       = if status_code r =? 429 then ps !! "cursor" else Some (page_cursor r)).
Proof.
  unfold paginated_get.
  destruct (paginated_get_loop_run url params combine_key
              (S (length (pending w))) VNone [] 0%nat w)
    as (events & Htr & _ & _ & Hfa & Hchain & _).
  cbv zeta in Htr. rewrite merge_cursor_deref_cursor in Hchain.
  simpl in Hchain.
  exists events. split; [done|]. split.
  - intros ps resp H0. destruct (exchanges events) as [|[ps0 resp0] xs]; [done|].
    injection H0 as -> ->. apply cursor_chain_head in Hchain.
    apply Forall_cons in Hfa as [Hps _]. simpl in Hps.
    assert (Heq : ps = deref w params).
    { apply map_eq. intros k.
      destruct (decide (k = "cursor")) as [->|Hk]; auto. }
    split; [done|]. by rewrite Heq.
  - intros i ps r ps' resp' Hi HSi.
    by rewrite (cursor_chain_lookup _ _ _ _ _ _ _ Hchain Hi HSi).
Qed.

(** C7 (as stated) fails: a second call on the dict a first call has
    used sends its first request with the last cursor of the first call. *)
Lemma paginated_get_sends_stale_cursor :
  let w1 := snd (paginated_get history_url 1%positive (Some "messages")
                   (sample_world
                      [json_response 200 (history_page [VStr "m1"] (VStr "c1"));
                       json_response 200 (history_page [VStr "m2"] VNone)])) in
  let w2 := mkWorld (heap w1) (HEADERS w1)
              [json_response 200 (history_page [VStr "m3"] VNone)] [] in
  map (λ x, fst x !! "cursor")
    (exchanges (trace (snd (paginated_get history_url 1%positive
                              (Some "messages") w2))))
  = [Some (VStr "c1")].
Proof. reflexivity. Qed.

(** C8 (the code departs from it).  Without an item key,
    [result.extend(data)] iterates the payload dict, so what
    [paginated_get] returns is the member names of every page's payload,
    page after page; the payloads themselves are not in the result. *)
Theorem paginated_get_without_key url params w pages last rest :
  pending w = pages ++ last :: rest →
  forallb (λ r, bool_decide (is_Some (envelope r))) (pages ++ [last]) = true →
  forallb has_cursor pages = true →
  page_cursor last = VNone →
  ∃ w',
    paginated_get url params None w
    = (Return (concat (map page_keys (pages ++ [last]))), w') ∧
    pending w' = rest.
Proof.
  intros Hp Hall Hc Hlast.
  rewrite forallb_app in Hall. apply andb_prop in Hall as [Hpages Hl].
  simpl in Hl. rewrite andb_true_r in Hl.
  apply bool_decide_eq_true in Hl as [entries Henv].
  assert (Hy : forallb (λ r, bool_decide (is_Some (page_yield None r))) pages
               = true ∧ yields None pages = concat (map page_keys pages)).
  { clear -Hpages. unfold yields.
    induction pages as [|r pages IH]; [done|]. simpl in *.
    apply andb_prop in Hpages as [Hr Hpages].
    destruct (IH Hpages) as [IH1 IH2]. rewrite IH1, IH2.
    apply bool_decide_eq_true in Hr as [es Hes].
    unfold page_yield, page_keys. by rewrite Hes. }
  destruct Hy as [Hy Hys].
  destruct (paginated_get_loop_pages url params None pages VNone [] 0%nat
              w (last :: rest) Hp Hy Hc)
    as (w1 & events & Hp1 & _ & _ & _ & _ & Hloop).
  exists (page_fetched url params (last_cursor VNone pages) last rest w1).
  split; [|done].
  unfold paginated_get. rewrite Hp, paginated_get_fuel, Hloop.
  rewrite (paginated_get_loop_page _ _ _ _ _ _ _ _ last rest entries) by done.
  simpl. rewrite Hlast. simpl. do 2 f_equal.
  rewrite map_app, concat_app, Hys. simpl. rewrite app_nil_r.
  f_equal. unfold page_keys. by rewrite Henv.
Qed.

(** One page holding one message: the result is the two member names. *)
Lemma paginated_get_without_key_example :
  fst (paginated_get history_url 1%positive None
         (sample_world
            [json_response 200
               [("ok", VBool true);
                ("messages", VList [VDict [("text", VStr "hi")]])]]))
  = Return [VStr "ok"; VStr "messages"].
Proof.
  destruct (paginated_get_without_key history_url 1%positive
              (sample_world
                 [json_response 200
                    [("ok", VBool true);
                     ("messages", VList [VDict [("text", VStr "hi")]])]])
              []
              (json_response 200
                 [("ok", VBool true);
                  ("messages", VList [VDict [("text", VStr "hi")]])])
              [] eq_refl eq_refl eq_refl eq_refl)
    as (w' & Hget & _).
  rewrite Hget. reflexivity.
Defined.

(** C9 (as amended).  [paginated_get] works on the caller's parameter
    dict in place.  Whatever the server answers and however the call
    ends, no other object of the heap changes, every entry of the dict
    other than [cursor] keeps its value, and every request sent carries
    those same entries: [cursor] is the only parameter in which two
    requests of one call can differ. *)
Theorem paginated_get_params_frame url params combine_key w :
  let w' := snd (paginated_get url params combine_key w) in
  (∀ l, l ≠ params → heap w' !! l = heap w !! l) ∧
  (∀ k, k ≠ "cursor" → deref w' params !! k = deref w params !! k) ∧
  ∃ events,
    trace w' = trace w ++ events ∧
    ∀ i ps resp,
      exchanges events !! i = Some (ps, resp) →
      ∀ k, k ≠ "cursor" → ps !! k = deref w params !! k.
Proof.
  unfold paginated_get.
  destruct (paginated_get_loop_run url params combine_key
              (S (length (pending w))) VNone [] 0%nat w)
    as (events & Htr & Hl & Hk & Hfa & _ & _).
  cbv zeta in *. split; [done|]. split; [done|].
  exists events. split; [done|].
  intros i ps resp Hi. by apply (Forall_lookup_1 _ _ _ _ Hfa Hi).
Qed.

(** C9 (as stated) fails: after a fetch of two pages the caller's dict
    holds a [cursor] entry it did not hold before. *)
Lemma paginated_get_mutates_params :
  let w := sample_world
             [json_response 200 (history_page [VStr "m1"] (VStr "c1"));
              json_response 200 (history_page [VStr "m2"] VNone)] in
  let w' := snd (paginated_get history_url 1%positive (Some "messages") w) in
  deref w 1%positive !! "cursor" = None ∧
  deref w' 1%positive !! "cursor" = Some (VStr "c1") ∧
  deref w' 1%positive ≠ deref w 1%positive.
Proof.
  intros w w'. split; [reflexivity|]. split; [reflexivity|].
  intros Heq. apply (f_equal (λ m, m !! "cursor")) in Heq.
  vm_compute in Heq. discriminate Heq.
Qed.

(** C10.  A 429 response without a Retry-After header, met at any point
    where an attempt is still allowed - at once, or after rate limits
    that [get_data] has waited out ([is_rate_limited]) - makes
    [get_data] raise [KeyError]:
    the lookup [r.headers["Retry-After"]] fails and nothing handles it.
    The call neither exits through [sys.exit] nor sleeps a default time:
    the trace ends with the request that drew the response. *)
Theorem get_data_missing_retry_after url params w retries r rest :
  pending w = retries ++ r :: rest →
  forallb is_rate_limited retries = true →
  (length retries < MAX_RETRIES)%nat →
  status_code r = 429 →
  headers r !! "retry-after" = None →
  get_data url params w =
  (Raise KeyError,
   mkWorld (heap w) (HEADERS w) rest
     (trace w ++ retry_events url (HEADERS w) (deref w params) retries
              ++ [EvGet url (HEADERS w) (deref w params) (Some r)])).
Proof.
  intros Hp Hall%rate_limited_retried Hlen Hs Hh.
  unfold get_data, mbind, M_bind.
  replace MAX_RETRIES
    with (length retries + S (MAX_RETRIES - length retries - 1))%nat by lia.
  rewrite (get_data_loop_skip retries _ _ _ _ _ (r :: rest)) by (done || lia).
  rewrite (get_data_loop_no_header _ _ _ _ _ r rest); try done.
  unfold deref. simpl. by rewrite <- app_assoc.
Qed.

(** A well-formed rate limit, then one without the header. *)
Lemma get_data_missing_retry_after_example :
  get_data history_url 1%positive
    (sample_world [rate_limit_response "1"; bare_rate_limit_response])
  = (Raise KeyError,
     mkWorld {[ 1%positive := history_params ]}
       {[ "Authorization" := "Bearer xoxp-test" ]} []
       [EvGet history_url {[ "Authorization" := "Bearer xoxp-test" ]}
          history_params (Some (rate_limit_response "1"));
        EvSleep 3;
        EvGet history_url {[ "Authorization" := "Bearer xoxp-test" ]}
          history_params (Some bare_rate_limit_response)]).
Proof.
  rewrite (get_data_missing_retry_after history_url 1%positive _
             [rate_limit_response "1"] bare_rate_limit_response []);
    try reflexivity.
  unfold MAX_RETRIES. simpl. lia.
Defined.

(** * Part IV: further properties *)

(** ** More on every run of the retry loop *)

Lemma targets_retry_events url hdrs ps retries :
  targets (retry_events url hdrs ps retries)
  = map (λ _, (url, hdrs)) retries.
Proof.
  induction retries as [|r retries IH]; [done|].
  unfold targets, retry_events in *. simpl. f_equal. exact IH.
Qed.

Lemma targets_app tr1 tr2 : targets (tr1 ++ tr2) = targets tr1 ++ targets tr2.
Proof. apply omap_app. Qed.

(** The loop sends no more requests than the attempts it has left. *)
Lemma get_data_loop_count fuel :
  ∀ attempt url params w,
  (length (exchanges (trace (snd (get_data_loop fuel attempt url params w))))
   ≤ length (exchanges (trace w)) + (MAX_RETRIES - attempt))%nat.
Proof.
  induction fuel as [|fuel IH]; intros attempt url params w.
  { simpl. destruct (attempt <? MAX_RETRIES)%nat; simpl; lia. }
  rewrite get_data_loop_S.
  destruct (Nat.ltb_spec attempt MAX_RETRIES) as [Hlt|Hge]; [|simpl; lia].
  assert (Hone : ∀ resp rest,
            (length (exchanges (trace
               (log (EvGet url (HEADERS w) (deref w params) resp)
                  (set_pending rest w))))
             ≤ length (exchanges (trace w)) + (MAX_RETRIES - attempt))%nat).
  { intros resp rest. simpl. rewrite exchanges_app, length_app. simpl. lia. }
  destruct (pending w) as [|r rest] eqn:Hp.
  { specialize (Hone None []). simpl in *. exact Hone. }
  cbv zeta. specialize (Hone (Some r) rest).
  destruct (status_code r =? 429); [|exact Hone].
  destruct (headers r !! lower "Retry-After") as [h|]; [|exact Hone].
  destruct (py_int h) as [n|]; [|exact Hone].
  destruct (MAX_STR_DIGITS <? int_str_digits (n + ADDITIONAL_SLEEP_TIME));
    [exact Hone|].
  destruct ((n + ADDITIONAL_SLEEP_TIME <? - SLEEP_LIMIT)
            || (SLEEP_LIMIT <? n + ADDITIONAL_SLEEP_TIME)); [exact Hone|].
  destruct (n + ADDITIONAL_SLEEP_TIME <? 0); [exact Hone|].
  etransitivity; [apply IH|].
  simpl. rewrite !exchanges_app, !length_app. simpl. lia.
Qed.

(** The shape of the trace any call of [get_data] leaves, whatever the
    server sends and however the call ends. *)
Lemma get_data_shape url params w :
  ∃ retries tail,
    let w' := snd (get_data url params w) in
    trace w'
    = trace w ++ retry_events url (HEADERS w) (deref w params) retries ++ tail ∧
    forallb is_retried retries = true ∧
    (tail = [] ∨ ∃ resp, tail = [EvGet url (HEADERS w) (deref w params) resp]) ∧
    (length retries + length tail ≤ MAX_RETRIES)%nat ∧
    heap w' = heap w ∧ HEADERS w' = HEADERS w.
Proof.
  destruct (get_data_loop_shape MAX_RETRIES 0 url params w)
    as (retries & tail & Hheap & Hhdr & Htr & Hall & Hend).
  pose proof (get_data_loop_count MAX_RETRIES 0 url params w) as Hcount.
  exists retries, tail. unfold get_data, mbind, M_bind. cbv zeta in *.
  rewrite Htr, !exchanges_app, exchanges_retry_events, !length_app, length_map
    in Hcount.
  destruct (get_data_loop MAX_RETRIES 0 url params w) as [[[a r]| | |] w1];
    simpl in *.
  - destruct Hend as (-> & _ & _). simpl in *. unfold MAX_RETRIES in *.
    repeat split; eauto. lia.
  - subst tail. simpl in *. unfold MAX_RETRIES in *. repeat split; eauto. lia.
  - destruct Hend as [resp ->]. simpl in *. unfold MAX_RETRIES in *.
    repeat split; eauto. lia.
  - destruct Hend as [-> _]. simpl in *. unfold MAX_RETRIES in *.
    repeat split; eauto. lia.
Qed.

(** X1.  Whatever the server sends and however the call ends,
    [get_data] leaves on the trace a run of rate-limited exchanges, each
    followed at once by one sleep of that response's Retry-After plus 2,
    and then at most one further request; all requests carry the same
    parameters, and there are at most [MAX_RETRIES] of them.  So the
    call never sleeps but after a 429 response, never sleeps a negative
    time, and never changes the heap. *)
Theorem get_data_trace url params w :
  ∃ retries tail,
    let w' := snd (get_data url params w) in
    let ps := deref w params in
    trace w' = trace w ++ retry_events url (HEADERS w) ps retries ++ tail ∧
    (tail = [] ∨ ∃ resp, tail = [EvGet url (HEADERS w) ps resp]) ∧
    Forall (λ r, status_code r = 429 ∧ 0 ≤ backoff r ∧
                 retry_after r = Some (backoff r - 2)) retries ∧
    sleeps (retry_events url (HEADERS w) ps retries ++ tail)
    = map backoff retries ∧
    (length (exchanges (retry_events url (HEADERS w) ps retries ++ tail))
     ≤ MAX_RETRIES)%nat ∧
    heap w' = heap w.
Proof.
  destruct (get_data_shape url params w)
    as (retries & tail & Htr & Hall & Htail & Hlen & Hheap & _).
  exists retries, tail. cbv zeta in *.
  split; [done|]. split; [done|]. split.
  { clear -Hall. induction retries as [|r retries IH]; [constructor|].
    simpl in Hall. apply andb_prop in Hall as [Hr Hall].
    constructor; [|by apply IH].
    destruct (is_retried_inv _ Hr) as (Hs & Hn & H0 & _).
    by repeat split. }
  split.
  { rewrite sleeps_app, sleeps_retry_events.
    destruct Htail as [->|[resp ->]]; by rewrite app_nil_r. }
  split; [|done].
  rewrite exchanges_app, exchanges_retry_events, length_app, length_map.
  destruct Htail as [->|[resp ->]]; simpl in *; lia.
Qed.

(** ** Error paths *)

(** X2.  A 429 response whose Retry-After is no integer to [int], or is
    an integer that leaves a time to sleep below 0 or beyond
    [SLEEP_LIMIT], makes [get_data] raise right after the request that
    drew it: nothing is slept and nothing retried.  The exception is
    [OverflowError], from [sleep], exactly when the header is an integer,
    the time to sleep has no more than [MAX_STR_DIGITS] digits and it is
    beyond [SLEEP_LIMIT] on either side.  Otherwise it is [ValueError]:
    from [int], from the formatting of a time to sleep of more than
    [MAX_STR_DIGITS] digits at line 44, or from [sleep] for a negative
    time it can hold. *)
Theorem get_data_bad_retry_after url params w retries r rest h :
  pending w = retries ++ r :: rest →
  forallb is_rate_limited retries = true →
  (length retries < MAX_RETRIES)%nat →
  status_code r = 429 →
  headers r !! "retry-after" = Some h →
  (∀ n, py_int h = Some n →
        n + ADDITIONAL_SLEEP_TIME < 0 ∨ SLEEP_LIMIT < n + ADDITIONAL_SLEEP_TIME) →
  ∃ e,
    get_data url params w =
    (Raise e,
     mkWorld (heap w) (HEADERS w) rest
       (trace w ++ retry_events url (HEADERS w) (deref w params) retries
                ++ [EvGet url (HEADERS w) (deref w params) (Some r)])) ∧
    (e = OverflowError ↔
     ∃ n, py_int h = Some n ∧
          int_str_digits (n + ADDITIONAL_SLEEP_TIME) ≤ MAX_STR_DIGITS ∧
          (n + ADDITIONAL_SLEEP_TIME < - SLEEP_LIMIT ∨
           SLEEP_LIMIT < n + ADDITIONAL_SLEEP_TIME)) ∧
    (e = ValueError ↔
     py_int h = None ∨
     ∃ n, py_int h = Some n ∧
          (MAX_STR_DIGITS < int_str_digits (n + ADDITIONAL_SLEEP_TIME) ∨
           - SLEEP_LIMIT ≤ n + ADDITIONAL_SLEEP_TIME < 0)).
Proof.
  intros Hp Hall%rate_limited_retried Hlen Hs Hh Hbad.
  unfold get_data, mbind, M_bind.
  replace MAX_RETRIES
    with (length retries + S (MAX_RETRIES - length retries - 1))%nat by lia.
  rewrite (get_data_loop_skip retries _ _ _ _ _ (r :: rest)) by (done || lia).
  rewrite get_data_loop_S. simpl pending. cbv zeta. simpl Nat.add.
  destruct (Nat.ltb_spec (length retries) MAX_RETRIES) as [_|]; [|lia].
  rewrite Hs. simpl.
  change (lower "Retry-After") with "retry-after". rewrite Hh.
  unfold log, set_pending, deref. simpl.
  destruct (py_int h) as [n|].
  2: { exists ValueError. rewrite <- app_assoc. split; [done|]. split.
       - split; [done|]. by intros (n & Hn & _).
       - split; auto. }
  specialize (Hbad n eq_refl).
  destruct (Z.ltb_spec MAX_STR_DIGITS (int_str_digits (n + ADDITIONAL_SLEEP_TIME))) as [Hbig|Hfits].
  { exists ValueError. rewrite <- app_assoc. split; [done|]. split.
    - split; [done|]. intros (n' & [= <-] & Hle & _). lia.
    - split; [|done]. intros _. right. exists n. auto. }
  destruct (Z.ltb_spec (n + ADDITIONAL_SLEEP_TIME) (- SLEEP_LIMIT)) as [Hlow|Hlow];
    [|destruct (Z.ltb_spec SLEEP_LIMIT (n + ADDITIONAL_SLEEP_TIME)) as [Hhigh|Hhigh]];
    simpl.
  - exists OverflowError. rewrite <- app_assoc. split; [done|]. split.
    + split; [|done]. intros _. exists n. auto.
    + split; [done|]. intros [?|(n' & [= <-] & [?|[? ?]])]; [done| |]; lia.
  - exists OverflowError. rewrite <- app_assoc. split; [done|]. split.
    + split; [|done]. intros _. exists n. auto.
    + split; [done|]. intros [?|(n' & [= <-] & [?|[? ?]])]; [done| |];
        unfold SLEEP_LIMIT in *; lia.
  - destruct (Z.ltb_spec (n + ADDITIONAL_SLEEP_TIME) 0) as [Hneg|Hpos]; [|lia].
    exists ValueError. rewrite <- app_assoc. split; [done|]. split.
    + split; [done|]. intros (n' & [= <-] & _ & [?|?]); lia.
    + split; [|done]. intros _. right. exists n. auto.
Qed.

(** An HTTP date in Retry-After, and a number of seconds past what
    [sleep] can hold. *)
Lemma get_data_bad_retry_after_example :
  fst (get_data history_url 1%positive
         (sample_world [rate_limit_response "Wed, 21 Oct 2015 07:28:00 GMT"]))
  = Raise ValueError ∧
  fst (get_data history_url 1%positive
         (sample_world [rate_limit_response "1";
                        rate_limit_response "99999999999999999999"]))
  = Raise OverflowError.
Proof.
  assert (Hlen0 : (length (@nil Response) < MAX_RETRIES)%nat)
    by (unfold MAX_RETRIES; simpl; lia).
  assert (Hlen1 : (length [rate_limit_response "1"] < MAX_RETRIES)%nat)
    by (unfold MAX_RETRIES; simpl; lia).
  assert (Hdate : ∀ n, py_int "Wed, 21 Oct 2015 07:28:00 GMT" = Some n →
            n + ADDITIONAL_SLEEP_TIME < 0
            ∨ SLEEP_LIMIT < n + ADDITIONAL_SLEEP_TIME).
  { intros n H. vm_compute in H. discriminate H. }
  assert (Hhuge : ∀ n, py_int "99999999999999999999" = Some n →
            n + ADDITIONAL_SLEEP_TIME < 0
            ∨ SLEEP_LIMIT < n + ADDITIONAL_SLEEP_TIME).
  { intros n H. vm_compute in H. injection H as <-. right. reflexivity. }
  split.
  - destruct (get_data_bad_retry_after history_url 1%positive
                (sample_world
                   [rate_limit_response "Wed, 21 Oct 2015 07:28:00 GMT"]) []
                (rate_limit_response "Wed, 21 Oct 2015 07:28:00 GMT") []
                "Wed, 21 Oct 2015 07:28:00 GMT" eq_refl eq_refl Hlen0
                eq_refl eq_refl Hdate)
      as (e & Hrun & _ & Hval).
    rewrite Hrun. simpl. f_equal. apply Hval. left. reflexivity.
  - destruct (get_data_bad_retry_after history_url 1%positive
                (sample_world [rate_limit_response "1";
                               rate_limit_response "99999999999999999999"])
                [rate_limit_response "1"]
                (rate_limit_response "99999999999999999999") []
                "99999999999999999999" eq_refl eq_refl Hlen1
                eq_refl eq_refl Hhuge)
      as (e & Hrun & Hover & _).
    rewrite Hrun. simpl. f_equal. apply Hover.
    exists 99999999999999999999. split; [reflexivity|].
    split; [by vm_compute|]. right. reflexivity.
Defined.

(** X3.  A response that is neither a rate limit nor a 200 is not
    retried: wherever in a fetch it comes, [paginated_get] stops with
    [sys.exit(1)] after the one request that drew it, without any sleep,
    and leaves the responses behind it pending. *)
Theorem paginated_get_http_error url params combine_key w pages r rest :
  pending w = pages ++ r :: rest →
  forallb (λ p, bool_decide (is_Some (page_yield combine_key p))) pages = true →
  forallb has_cursor pages = true →
  status_code r ≠ 429 →
  status_code r ≠ 200 →
  ∃ w' events,
    paginated_get url params combine_key w = (Exit 1, w') ∧
    pending w' = rest ∧
    trace w' = trace w ++ events ∧
    map snd (exchanges events) = map Some (pages ++ [r]) ∧
    sleeps events = [].
Proof.
  intros Hp Hy Hc H429 H200.
  destruct (paginated_get_loop_pages url params combine_key pages VNone [] 0%nat
              w (r :: rest) Hp Hy Hc)
    as (w1 & events & Hp1 & Hh1 & Ht1 & He1 & Hs1 & Hloop).
  set (cur := last_cursor VNone pages) in *.
  exists (fetched url params [] r rest (merge_cursor params cur w1)),
    (events ++ [EvGet url (HEADERS w1)
                  (deref (merge_cursor params cur w1) params) (Some r)]).
  split.
  { unfold paginated_get. rewrite Hp, paginated_get_fuel, Hloop.
    rewrite (paginated_get_loop_stop _ _ _ _ _ _ _ _ (Exit 1)
               (fetched url params [] r rest (merge_cursor params cur w1)));
      try done.
    rewrite (get_at_cursor_fetch _ _ _ _ [] r rest); try done.
    - unfold decode. apply Z.eqb_neq in H200. by rewrite H200.
    - unfold MAX_RETRIES. simpl. lia. }
  split; [done|]. split.
  { unfold fetched. simpl.
    rewrite merge_cursor_trace, merge_cursor_headers, Ht1.
    by rewrite <- app_assoc. }
  split.
  { by rewrite exchanges_app, !map_app, He1. }
  by rewrite sleeps_app, Hs1.
Qed.

(** A 500 in place of the second page. *)
Lemma paginated_get_http_error_example :
  let pages := [json_response 200 (history_page [VStr "m1"] (VStr "c1"))] in
  let r := mkResponse 500 "Internal Server Error" ∅ None in
  fst (paginated_get history_url 1%positive (Some "messages")
         (sample_world (pages ++ [r; r])))
  = Exit 1 ∧
  pending (snd (paginated_get history_url 1%positive (Some "messages")
                  (sample_world (pages ++ [r; r])))) = [r].
Proof.
  intros pages r.
  assert (H429 : status_code r ≠ 429) by (simpl; lia).
  assert (H200 : status_code r ≠ 200) by (simpl; lia).
  destruct (paginated_get_http_error history_url 1%positive (Some "messages")
              (sample_world (pages ++ [r; r])) pages r [r]
              eq_refl eq_refl eq_refl H429 H200)
    as (w' & events & Hget & Hpend & _).
  by rewrite Hget.
Defined.

(** X4.  A 200 response whose body does not hold what [get_at_cursor]
    reads makes it raise, not exit: [JSONDecodeError] when the body is not
    JSON, [TypeError] when the payload is not an object, [KeyError] when
    the object has no [ok] member.  No second request is made. *)
Theorem get_at_cursor_malformed_payload url params cursor w r rest :
  pending w = r :: rest →
  status_code r = 200 →
  let res := get_at_cursor url params cursor w in
  snd res = page_fetched url params cursor r rest w ∧
  (json_body r = None → fst res = Raise JSONDecodeError) ∧
  (∀ d, json_body r = Some d → (∀ entries, d ≠ VDict entries) →
        fst res = Raise TypeError) ∧
  (∀ entries, json_body r = Some (VDict entries) →
     dict_lookup entries "ok" = None → fst res = Raise KeyError).
Proof.
  intros Hp Hs res. unfold res.
  rewrite (get_at_cursor_fetch _ _ _ _ [] r rest); try done;
    [|unfold MAX_RETRIES; simpl; lia|rewrite Hs; lia].
  simpl. split; [done|]. unfold decode. rewrite Hs. simpl.
  split; [by intros ->|]. split.
  - intros d -> Hd. destruct d as [| | | | | |entries]; try done.
    by destruct (Hd entries).
  - by intros entries -> ->.
Qed.

(** A payload without [ok], and a payload that is an array. *)
Lemma get_at_cursor_malformed_payload_example :
  fst (get_at_cursor history_url 1%positive VNone
         (sample_world [json_response 200 [("messages", VList [])]]))
  = Raise KeyError ∧
  fst (get_at_cursor history_url 1%positive VNone
         (sample_world [mkResponse 200 "OK" ∅ (Some (VList []))]))
  = Raise TypeError.
Proof.
  split.
  - destruct (get_at_cursor_malformed_payload history_url 1%positive VNone
                (sample_world [json_response 200 [("messages", VList [])]])
                (json_response 200 [("messages", VList [])]) []
                eq_refl eq_refl) as (_ & _ & _ & Hkey).
    exact (Hkey _ eq_refl eq_refl).
  - destruct (get_at_cursor_malformed_payload history_url 1%positive VNone
                (sample_world [mkResponse 200 "OK" ∅ (Some (VList []))])
                (mkResponse 200 "OK" ∅ (Some (VList []))) []
                eq_refl eq_refl) as (_ & _ & Hty & _).
    by apply (Hty _ eq_refl).
Defined.

(** X5.  The handler around the merge catches [KeyError] only.  When a
    page holds under the item key a value that cannot be iterated - null,
    a boolean or a number - [list.extend] raises [TypeError] and
    [paginated_get] lets it escape instead of exiting; the items of the
    pages before are lost with it. *)
Theorem paginated_get_items_not_iterable url params key w pages r rest
    entries v :
  pending w = pages ++ r :: rest →
  forallb (is_page key) pages = true →
  forallb has_cursor pages = true →
  envelope r = Some entries →
  dict_lookup entries key = Some v →
  iterate v = None →
  ∃ w',
    paginated_get url params (Some key) w = (Raise TypeError, w') ∧
    pending w' = rest.
Proof.
  intros Hp Hall Hc Henv Hkey Hv.
  destruct (is_page_yields _ _ Hall) as [Hy _].
  destruct (paginated_get_loop_pages url params (Some key) pages VNone [] 0%nat
              w (r :: rest) Hp Hy Hc)
    as (w1 & events & Hp1 & _ & _ & _ & _ & Hloop).
  exists (page_fetched url params (last_cursor VNone pages) r rest w1).
  split; [|done].
  unfold paginated_get. rewrite Hp, paginated_get_fuel, Hloop.
  rewrite (paginated_get_loop_page _ _ _ _ _ _ _ _ r rest entries) by done.
  unfold merge_page. by rewrite Hkey, Hv.
Qed.

(** [messages] is [null]. *)
Lemma paginated_get_items_not_iterable_example :
  fst (paginated_get history_url 1%positive (Some "messages")
         (sample_world
            [json_response 200 [("ok", VBool true); ("messages", VNone)]]))
  = Raise TypeError.
Proof.
  destruct (paginated_get_items_not_iterable history_url 1%positive "messages"
              (sample_world
                 [json_response 200 [("ok", VBool true); ("messages", VNone)]])
              [] (json_response 200 [("ok", VBool true); ("messages", VNone)])
              [] [("ok", VBool true); ("messages", VNone)] VNone
              eq_refl eq_refl eq_refl eq_refl eq_refl eq_refl)
    as (w' & Hget & _).
  by rewrite Hget.
Defined.

(** ** What a fetch returns, whenever it returns *)

Lemma answered_app xs ys : answered (xs ++ ys) = answered xs ++ answered ys.
Proof. apply omap_app. Qed.

Lemma answered_retries (ps : gmap string value) retries :
  forallb is_retried retries = true →
  answered (map (λ r, (ps, Some r)) retries) = [].
Proof.
  induction retries as [|r retries IH]; [done|]. simpl.
  intros [Hr Hall]%andb_prop. apply andb_prop in Hr as [Hs _].
  unfold answered in *. simpl. rewrite Hs. by apply IH.
Qed.

(** A call of [get_data] that returns has waited out some rate limits
    and returns the first response that is not one. *)
Lemma get_data_Return url params w r w1 :
  get_data url params w = (Return r, w1) →
  ∃ retries,
    forallb is_retried retries = true ∧
    status_code r ≠ 429 ∧
    heap w1 = heap w ∧ HEADERS w1 = HEADERS w ∧
    trace w1
    = trace w ++ retry_events url (HEADERS w) (deref w params) retries
              ++ [EvGet url (HEADERS w) (deref w params) (Some r)].
Proof.
  intros Hget.
  destruct (get_data_loop_shape MAX_RETRIES 0 url params w)
    as (retries & tail & Hheap & Hhdr & Htr & Hall & Hend).
  unfold get_data, mbind, M_bind in Hget. cbv zeta in *.
  destruct (get_data_loop MAX_RETRIES 0 url params w) as [[[a r']| | |] w2];
    try done.
  simpl in *. injection Hget as -> ->.
  destruct Hend as (-> & Hs & _). by exists retries.
Qed.

Lemma answered_single (ps : gmap string value) r :
  status_code r ≠ 429 → answered [(ps, Some r)] = [r].
Proof.
  intros Hs%Z.eqb_neq. unfold answered. simpl. by rewrite Hs.
Qed.

Lemma paginated_get_loop_sound url params combine_key fuel :
  ∀ cursor result page_count w result' w',
  paginated_get_loop fuel url params combine_key cursor result page_count w
  = (Return result', w') →
  ∃ events pages final,
    trace w' = trace w ++ events ∧
    answered (exchanges events) = pages ++ [final] ∧
    forallb (λ r, bool_decide (is_Some (page_merge combine_key r)))
      (pages ++ [final]) = true ∧
    forallb has_cursor pages = true ∧
    page_cursor final = VNone ∧
    result' = result ++ concat (map (λ r, default [] (page_merge combine_key r))
                                  (pages ++ [final])).
Proof.
  induction fuel as [|fuel IH];
    intros cursor result page_count w result' w' Hrun; [done|].
  pose proof (get_at_cursor_decode url params cursor w) as Hget.
  destruct (get_data url params (merge_cursor params cursor w))
    as [[r| | |] w1] eqn:Hdata;
    try (rewrite (paginated_get_loop_stop _ _ _ _ _ _ _ _ _ w1 Hget) in Hrun
           by done; done).
  destruct (get_data_Return _ _ _ _ _ Hdata)
    as (retries & Hall & Hs & _ & _ & Htr).
  rewrite merge_cursor_trace, merge_cursor_headers in Htr.
  destruct (decode r) as [[c d]| | |] eqn:Hdec;
    try (rewrite (paginated_get_loop_stop _ _ _ _ _ _ _ _ _ w1 Hget) in Hrun
           by done; done).
  destruct (decode_Return _ _ _ Hdec) as (_ & _ & -> & entries & ->).
  rewrite (paginated_get_loop_step _ _ _ _ _ _ _ _ _ _ _ Hget) in Hrun.
  destruct (merge_page combine_key entries) as [xs| | |] eqn:Hm; try done.
  assert (Hpm : page_merge combine_key r = Some xs).
  { unfold page_merge. by rewrite Hdec, Hm. }
  set (ps := deref (merge_cursor params cursor w) params) in *.
  set (events1 := retry_events url (HEADERS w) ps retries
                  ++ [EvGet url (HEADERS w) ps (Some r)]) in *.
  assert (Hans : answered (exchanges events1) = [r]).
  { unfold events1.
    rewrite exchanges_app, exchanges_retry_events, answered_app.
    rewrite (answered_retries _ _ Hall). by apply answered_single. }
  destruct (is_None (page_cursor r)) eqn:Hnone.
  - injection Hrun as <- <-. exists events1, [], r.
    split; [done|]. split; [done|]. simpl. rewrite Hpm. simpl.
    rewrite app_nil_r. repeat split; try done.
    by destruct (page_cursor r).
  - destruct (IH _ _ _ _ _ _ Hrun)
      as (events2 & pages & final & Htr2 & Hans2 & Hall2 & Hc2 & Hfin & Hres).
    exists (events1 ++ events2), (r :: pages), final.
    split; [by rewrite Htr2, Htr, <- app_assoc|].
    split; [by rewrite exchanges_app, answered_app, Hans, Hans2|].
    split; [simpl; rewrite Hpm; simpl; exact Hall2|].
    split; [simpl; unfold has_cursor at 1; by rewrite Hnone|].
    split; [done|].
    rewrite Hres. simpl. rewrite Hpm. simpl. by rewrite app_assoc.
Qed.

(** X6.  Whenever [paginated_get] returns - whatever rate limiting came
    in between - the responses it took that were not rate limits are
    pages it accepted, one or more; each but the last named a next page
    and the last named none; and the result is exactly what those pages
    hold, in the order they came: nothing is dropped, repeated or added. *)
Theorem paginated_get_sound url params combine_key w result w' :
  paginated_get url params combine_key w = (Return result, w') →
  ∃ events pages final,
    trace w' = trace w ++ events ∧
    answered (exchanges events) = pages ++ [final] ∧
    forallb (λ r, bool_decide (is_Some (page_merge combine_key r)))
      (pages ++ [final]) = true ∧
    forallb has_cursor pages = true ∧
    page_cursor final = VNone ∧
    result = concat (map (λ r, default [] (page_merge combine_key r))
                       (pages ++ [final])).
Proof.
  unfold paginated_get. intros Hrun.
  destruct (paginated_get_loop_sound _ _ _ _ _ _ _ _ _ _ Hrun)
    as (events & pages & final & H).
  exists events, pages, final. exact H.
Qed.

(** Two pages with a rate limit between them. *)
Lemma paginated_get_sound_example :
  let p1 := json_response 200 (history_page [VStr "m1"] (VStr "c1")) in
  let p2 := json_response 200 (history_page [VStr "m2"] VNone) in
  let w := sample_world [p1; rate_limit_response "1"; p2] in
  ∃ events pages final,
    trace (snd (paginated_get history_url 1%positive (Some "messages") w))
    = trace w ++ events ∧
    answered (exchanges events) = pages ++ [final] ∧
    forallb (λ r, bool_decide (is_Some (page_merge (Some "messages") r)))
      (pages ++ [final]) = true ∧
    forallb has_cursor pages = true ∧
    page_cursor final = VNone ∧
    [VStr "m1"; VStr "m2"]
    = concat (map (λ r, default [] (page_merge (Some "messages") r))
                (pages ++ [final])).
Proof.
  intros p1 p2 w.
  exact (paginated_get_sound history_url 1%positive (Some "messages") w
           [VStr "m1"; VStr "m2"]
           (snd (paginated_get history_url 1%positive (Some "messages") w))
           eq_refl).
Defined.

(** ** Where requests go, and that there is one *)

(** The loop, when it may still make an attempt, starts with a request. *)
Lemma get_data_loop_first fuel attempt url params w :
  (attempt < MAX_RETRIES)%nat →
  ∃ resp events,
    trace (snd (get_data_loop (S fuel) attempt url params w))
    = trace w ++ EvGet url (HEADERS w) (deref w params) resp :: events.
Proof.
  intros Hlt. rewrite get_data_loop_S.
  destruct (Nat.ltb_spec attempt MAX_RETRIES) as [_|]; [|lia].
  destruct (pending w) as [|r rest]; [by exists None, []|].
  cbv zeta.
  destruct (status_code r =? 429); [|by exists (Some r), []].
  destruct (headers r !! lower "Retry-After") as [h|];
    [|by exists (Some r), []].
  destruct (py_int h) as [n|]; [|by exists (Some r), []].
  destruct (MAX_STR_DIGITS <? int_str_digits (n + ADDITIONAL_SLEEP_TIME));
    [by exists (Some r), []|].
  destruct ((n + ADDITIONAL_SLEEP_TIME <? - SLEEP_LIMIT)
            || (SLEEP_LIMIT <? n + ADDITIONAL_SLEEP_TIME));
    [by exists (Some r), []|].
  destruct (n + ADDITIONAL_SLEEP_TIME <? 0); [by exists (Some r), []|].
  match goal with
  | |- context [get_data_loop fuel ?a url params ?w2] =>
      destruct (get_data_loop_shape fuel a url params w2)
        as (rs & tl & _ & _ & Htr & _)
  end.
  cbv zeta in Htr. rewrite Htr. unfold log, set_pending. cbn [trace].
  exists (Some r). eexists. rewrite <- !app_assoc. reflexivity.
Qed.

Lemma get_data_first url params w :
  ∃ resp events,
    trace (snd (get_data url params w))
    = trace w ++ EvGet url (HEADERS w) (deref w params) resp :: events.
Proof.
  destruct (get_data_loop_first 9 0 url params w) as (resp & events & Htr);
    [unfold MAX_RETRIES; lia|].
  exists resp, events. unfold get_data, mbind, M_bind.
  change MAX_RETRIES with 10%nat at 1.
  by destruct (get_data_loop 10 0 url params w) as [[[a r]| | |] w1].
Qed.

(** Every request of a run of the page loop goes to [url] with the
    headers the world holds, which no run of the model changes; and a
    run that has fuel sends at least one. *)
Lemma paginated_get_loop_targets url params combine_key fuel :
  ∀ cursor result page_count w,
  ∃ events,
    let res := paginated_get_loop fuel url params combine_key cursor result
                 page_count w in
    trace (snd res) = trace w ++ events ∧
    HEADERS (snd res) = HEADERS w ∧
    Forall (λ t, t = (url, HEADERS w)) (targets events) ∧
    (0 < fuel → exchanges events ≠ [])%nat.
Proof.
  induction fuel as [|fuel IH]; intros cursor result page_count w.
  { exists []. simpl. rewrite app_nil_r. repeat split; try done. lia. }
  set (w0 := merge_cursor params cursor w).
  destruct (get_data_shape url params w0)
    as (retries & tail & Htr & _ & Htail & _ & _ & Hhdr).
  destruct (get_data_first url params w0) as (resp & rest & Hfirst).
  cbv zeta in Htr, Hhdr.
  unfold w0 in Htr, Hhdr, Hfirst.
  rewrite merge_cursor_trace, merge_cursor_headers in Htr, Hfirst.
  rewrite merge_cursor_headers in Hhdr.
  fold w0 in Htr, Hhdr, Hfirst.
  set (events := retry_events url (HEADERS w) (deref w0 params) retries ++ tail)
    in *.
  assert (Hne : exchanges events ≠ []).
  { rewrite Htr in Hfirst. apply app_inv_head in Hfirst. rewrite Hfirst.
    done. }
  assert (Hfa : Forall (λ t, t = (url, HEADERS w)) (targets events)).
  { unfold events. rewrite targets_app, targets_retry_events.
    apply Forall_app. split.
    - clear. induction retries; cbn;
        [apply Forall_nil_2 | by apply Forall_cons_2].
    - destruct Htail as [->|[rsp ->]]; cbn;
        [apply Forall_nil_2
        |apply Forall_cons_2; [|apply Forall_nil_2]].
      unfold w0. by rewrite merge_cursor_headers. }
  pose proof (get_at_cursor_decode url params cursor w) as Hget.
  fold w0 in Hget.
  destruct (get_data url params w0) as [[r| | |] w1] eqn:Hdata;
    simpl in Htr, Hhdr;
    try (exists events;
         rewrite (paginated_get_loop_stop _ _ _ _ _ _ _ _ _ w1 Hget) by done;
         by repeat split).
  destruct (decode r) as [[c d]| | |] eqn:Hdec;
    try (exists events;
         rewrite (paginated_get_loop_stop _ _ _ _ _ _ _ _ _ w1 Hget) by done;
         by repeat split).
  destruct (decode_Return _ _ _ Hdec) as (_ & _ & -> & entries & ->).
  rewrite (paginated_get_loop_step _ _ _ _ _ _ _ _ _ _ _ Hget).
  destruct (merge_page combine_key entries) as [xs| | |];
    try (exists events; by repeat split).
  destruct (is_None (page_cursor r)); [exists events; by repeat split|].
  destruct (IH (page_cursor r) (result ++ xs) (page_count + 1)%nat w1)
    as (events' & Htr2 & Hhdr2 & Hfa2 & _).
  cbv zeta in Htr2, Hhdr2. rewrite Hhdr in Hfa2.
  exists (events ++ events'). cbv zeta.
  split; [by rewrite Htr2, Htr, app_assoc|].
  split; [by rewrite Hhdr2|].
  split; [rewrite targets_app; by apply Forall_app|].
  intros _. rewrite exchanges_app. intros Heq.
  by apply app_eq_nil in Heq as [? _].
Qed.

(** X7.  In any call of [paginated_get], however it ends, the trace
    only grows, [requests.get] is called at least once, and every call
    of it is for the url given.  Nothing is said of the headers the
    requests carry: they are those of the module as long as [params] is
    not the [HEADERS] dict itself. *)
Theorem paginated_get_requests url params combine_key w :
  ∃ events,
    let w' := snd (paginated_get url params combine_key w) in
    trace w' = trace w ++ events ∧
    exchanges events ≠ [] ∧
    length (targets events) = length (exchanges events) ∧
    ∀ i t, targets events !! i = Some t → fst t = url.
Proof.
  unfold paginated_get.
  destruct (paginated_get_loop_targets url params combine_key
              (S (length (pending w))) VNone [] 0%nat w)
    as (events & Htr & Hhdr & Hfa & Hne).
  exists events. cbv zeta in *.
  split; [done|]. split; [apply Hne; lia|]. split.
  - clear. unfold targets, exchanges.
    induction events as [|[]]; simpl; auto.
  - intros i t Hi. by rewrite (Forall_lookup_1 _ _ _ _ Hfa Hi).
Qed.

(** ** Pages delivered through rate limits *)

(** What [paginated_get] does with pages that arrive through rate
    limits. *)
Lemma paginated_get_deliveries url params combine_key w ds final rest :
  pending w = delivered (ds ++ [final]) ++ rest →
  forallb (well_delivered combine_key) (ds ++ [final]) = true →
  forallb has_cursor (map page ds) = true →
  page_cursor (page final) = VNone →
  ∃ w' events,
    paginated_get url params combine_key w
    = (Return (yields combine_key (map page (ds ++ [final]))), w') ∧
    pending w' = rest ∧
    trace w' = trace w ++ events ∧
    map snd (exchanges events) = map Some (delivered (ds ++ [final])) ∧
    sleeps events = map backoff (concat (map limits (ds ++ [final]))) ∧
    (∀ l, l ≠ params → heap w' !! l = heap w !! l).
Proof.
  intros Hp Hw Hc Hlast.
  rewrite forallb_app in Hw. apply andb_prop in Hw as [Hds Hf].
  simpl in Hf. rewrite andb_true_r in Hf.
  destruct (well_delivered_inv _ _ Hf)
    as (Hall & Hlen & entries & xs & Henv & Hm & Hy).
  assert (Hp2 : pending w
                = delivered ds ++ (limits final ++ page final :: rest)).
  { rewrite Hp. unfold delivered. rewrite map_app, concat_app. simpl.
    by rewrite app_nil_r, <- !app_assoc. }
  destruct (paginated_get_loop_deliveries url params combine_key ds VNone []
              0%nat w _ Hp2 Hds Hc)
    as (w1 & events & Hp1 & Ht1 & He1 & Hs1 & Hloop).
  set (cur := last_cursor VNone (map page ds)) in *.
  set (w0 := merge_cursor params cur w1).
  set (events2 := retry_events url (HEADERS w1) (deref w0 params) (limits final)
                  ++ [EvGet url (HEADERS w1) (deref w0 params)
                        (Some (page final))]).
  destruct (paginated_get_loop_run url params combine_key
              (S (length (pending w))) VNone [] 0%nat w)
    as (evs & _ & Hframe & _).
  exists (fetched url params (limits final) (page final) rest w0),
    (events ++ events2).
  assert (Hrun : paginated_get url params combine_key w
            = (Return (yields combine_key (map page (ds ++ [final]))),
               fetched url params (limits final) (page final) rest w0)).
  { unfold paginated_get.
    pose proof (length_delivered ds) as Hld.
    replace (S (length (pending w)))
      with (length ds + S (length (pending w) - length ds))%nat
      by (rewrite Hp2, length_app; lia).
    rewrite Hloop.
    rewrite (paginated_get_loop_delivery _ _ _ _ _ _ _ _ final rest entries)
      by done.
    cbv zeta. rewrite Hm, Hlast. simpl. fold cur w0. do 2 f_equal.
    unfold yields. rewrite !map_app, concat_app. simpl.
    by rewrite Hy, app_nil_r. }
  split; [done|]. split; [done|]. split.
  { unfold fetched, events2, w0. simpl.
    rewrite merge_cursor_trace, merge_cursor_headers, Ht1.
    by rewrite <- !app_assoc. }
  split.
  { rewrite exchanges_app, map_app, He1. unfold events2.
    rewrite exchanges_app, exchanges_retry_events, map_app, map_map.
    unfold delivered. rewrite !map_app, concat_app, map_app. simpl.
    rewrite app_nil_r, map_app. simpl. by do 2 f_equal. }
  split.
  { rewrite sleeps_app, Hs1. unfold events2.
    rewrite sleeps_app, sleeps_retry_events. simpl.
    by rewrite app_nil_r, !map_app, concat_app, map_app; simpl;
       rewrite app_nil_r. }
  cbv zeta in Hframe. unfold paginated_get in Hrun. rewrite Hrun in Hframe.
  exact Hframe.
Qed.

(** X8.  The retry budget is per page.  When every page of a fetch
    arrives behind fewer than [MAX_RETRIES] rate-limit responses -
    however many that makes over the whole fetch - [paginated_get] waits
    each of them out and returns what the pages hold, in order; it sends
    one request per response, sleeps once per rate limit for its
    Retry-After plus 2, and leaves the responses behind the last page
    pending. *)
Theorem paginated_get_through_rate_limits url params combine_key w ds final
    rest :
  pending w = delivered (ds ++ [final]) ++ rest →
  forallb (well_delivered combine_key) (ds ++ [final]) = true →
  forallb has_cursor (map page ds) = true →
  page_cursor (page final) = VNone →
  ∃ w' events,
    paginated_get url params combine_key w
    = (Return (yields combine_key (map page (ds ++ [final]))), w') ∧
    pending w' = rest ∧
    trace w' = trace w ++ events ∧
    map snd (exchanges events) = map Some (delivered (ds ++ [final])) ∧
    sleeps events = map backoff (concat (map limits (ds ++ [final]))).
Proof.
  intros Hp Hw Hc Hlast.
  destruct (paginated_get_deliveries url params combine_key w ds final rest
              Hp Hw Hc Hlast)
    as (w' & events & Hrun & Hrest & Htr & Hex & Hsl & _).
  by exists w', events.
Qed.

(** Two pages, each behind nine rate limits: eighteen in all. *)
Lemma paginated_get_through_rate_limits_example :
  let d1 := mkDelivery (replicate 9 (rate_limit_response "0"))
              (json_response 200 (history_page [VStr "m1"] (VStr "c1"))) in
  let d2 := mkDelivery (replicate 9 (rate_limit_response "1"))
              (json_response 200 (history_page [VStr "m2"] VNone)) in
  fst (paginated_get history_url 1%positive (Some "messages")
         (sample_world (delivered [d1; d2])))
  = Return [VStr "m1"; VStr "m2"] ∧
  length (sleeps (trace (snd (paginated_get history_url 1%positive
                                (Some "messages")
                                (sample_world (delivered [d1; d2]))))))
  = 18%nat.
Proof.
  intros d1 d2.
  destruct (paginated_get_through_rate_limits history_url 1%positive
              (Some "messages") (sample_world (delivered [d1; d2]))
              [d1] d2 [] eq_refl eq_refl eq_refl eq_refl)
    as (w' & events & Hrun & _ & Htr & _ & Hsl).
  rewrite Hrun. split; [reflexivity|].
  simpl snd. rewrite Htr, sleeps_app, Hsl. reflexivity.
Defined.

(** ** The history of a channel *)

Lemma history_query_lookup channel_id oldest latest :
  let q := history_query channel_id oldest latest in
  q !! "channel" = Some channel_id ∧
  q !! "limit" = Some (VInt 200) ∧
  q !! "oldest" = (if is_None oldest then None else Some oldest) ∧
  q !! "latest" = (if is_None latest then None else Some latest) ∧
  q !! "cursor" = None ∧
  (∀ k, k ∉ ["channel"; "limit"; "oldest"; "latest"; "cursor"] →
        q !! k = None).
Proof.
  unfold history_query.
  assert (Hk : ∀ k : string,
            k ∉ ["channel"; "limit"; "oldest"; "latest"; "cursor"] →
            k ≠ "channel" ∧ k ≠ "limit" ∧ k ≠ "oldest" ∧ k ≠ "latest").
  { intros k Hk. repeat split; intros ->; apply Hk; set_solver. }
  destruct (is_None oldest), (is_None latest); cbv zeta;
    repeat split; try (by simplify_map_eq);
    intros k (? & ? & ? & ?)%Hk; by simplify_map_eq.
Qed.

(** The world in which [channel_history] calls [paginated_get]: the new
    dict sits at an address of its own. *)
Lemma channel_history_unfold channel_id oldest latest w :
  let params := fresh (dom (heap w)) in
  let w0 := set_heap (<[params := history_query channel_id oldest latest]>
                        (heap w)) w in
  channel_history channel_id oldest latest w
  = paginated_get "https://slack.com/api/conversations.history" params
      (Some "messages") w0 ∧
  heap w !! params = None ∧
  deref w0 params = history_query channel_id oldest latest ∧
  trace w0 = trace w ∧ pending w0 = pending w ∧ HEADERS w0 = HEADERS w ∧
  (∀ l, l ≠ params → heap w0 !! l = heap w !! l).
Proof.
  intros params w0.
  assert (Hfresh : heap w !! params = None).
  { apply not_elem_of_dom. apply is_fresh. }
  split; [|split; [done|]; split; [|split; [done|]; split; [done|]; split;
    [done|]]].
  - unfold channel_history, mbind, M_bind, new_dict. fold params.
    unfold w0, history_query, setitem, deref, set_heap.
    destruct (is_None oldest), (is_None latest); simpl;
      rewrite ?lookup_insert_eq; simpl; rewrite ?insert_insert_eq;
      rewrite ?lookup_insert_eq; simpl; rewrite ?insert_insert_eq;
      reflexivity.
  - unfold w0, deref. simpl. by rewrite lookup_insert_eq.
  - intros l Hl. unfold w0. simpl. by rewrite lookup_insert_ne.
Qed.

(** X9.  Whatever the server sends and however the call ends, every
    request of [channel_history] carries the channel id, [limit] 200,
    and [oldest] and [latest] exactly when they were given; besides
    those it can carry [cursor] and nothing else; and the first request
    carries no [cursor]: the dict is built anew by each call. *)
Theorem channel_history_requests channel_id oldest latest w :
  ∃ events,
    trace (snd (channel_history channel_id oldest latest w))
    = trace w ++ events ∧
    exchanges events ≠ [] ∧
    ∀ i ps resp,
      exchanges events !! i = Some (ps, resp) →
      ps !! "channel" = Some channel_id ∧
      ps !! "limit" = Some (VInt 200) ∧
      ps !! "oldest" = (if is_None oldest then None else Some oldest) ∧
      ps !! "latest" = (if is_None latest then None else Some latest) ∧
      (∀ k, k ∉ ["channel"; "limit"; "oldest"; "latest"; "cursor"] →
            ps !! k = None) ∧
      (i = 0%nat → ps !! "cursor" = None).
Proof.
  destruct (channel_history_unfold channel_id oldest latest w)
    as (Heq & _ & Hderef & Htr0 & _ & _ & _).
  cbv zeta in *. rewrite Heq. unfold paginated_get.
  set (params := fresh (dom (heap w))) in *.
  set (w0 := set_heap _ w) in *.
  destruct (paginated_get_loop_run
              "https://slack.com/api/conversations.history" params
              (Some "messages") (S (length (pending w0))) VNone [] 0%nat w0)
    as (events & Htr & _ & _ & Hfa & Hchain & _).
  destruct (paginated_get_loop_targets
              "https://slack.com/api/conversations.history" params
              (Some "messages") (S (length (pending w0))) VNone [] 0%nat w0)
    as (events' & Htr' & _ & _ & Hne).
  cbv zeta in Htr, Htr'. rewrite Htr in Htr'. apply app_inv_head in Htr'.
  subst events'.
  rewrite merge_cursor_deref_cursor in Hchain. simpl in Hchain.
  rewrite Hderef in Hfa, Hchain.
  destruct (history_query_lookup channel_id oldest latest)
    as (Hch & Hlim & Hold & Hlat & Hcur & Hoth).
  exists events. rewrite Htr, Htr0.
  split; [done|]. split; [apply Hne; lia|].
  intros i ps resp Hi.
  pose proof (Forall_lookup_1 _ _ _ _ Hfa Hi) as Hps. simpl in Hps.
  rewrite !Hps by done. repeat split; try done.
  - intros k Hk. rewrite Hps; [by apply Hoth|].
    intros ->. apply Hk. set_solver.
  - intros ->. destruct (exchanges events) as [|[ps0 resp0] xs]; [done|].
    injection Hi as -> ->. apply cursor_chain_head in Hchain.
    by rewrite Hchain.
Qed.

(** X10.  [channel_history] changes no dict that existed before the
    call and leaves the credential header alone, however it ends: the
    cursor it stores goes into a dict of its own. *)
Theorem channel_history_frame channel_id oldest latest w :
  let w' := snd (channel_history channel_id oldest latest w) in
  HEADERS w' = HEADERS w ∧
  ∀ l, is_Some (heap w !! l) → heap w' !! l = heap w !! l.
Proof.
  destruct (channel_history_unfold channel_id oldest latest w)
    as (Heq & Hfresh & _ & _ & _ & Hhdr0 & Hother).
  cbv zeta in *. rewrite Heq. unfold paginated_get.
  set (params := fresh (dom (heap w))) in *.
  set (w0 := set_heap _ w) in *.
  destruct (paginated_get_loop_run
              "https://slack.com/api/conversations.history" params
              (Some "messages") (S (length (pending w0))) VNone [] 0%nat w0)
    as (events & _ & Hl & _).
  destruct (paginated_get_loop_targets
              "https://slack.com/api/conversations.history" params
              (Some "messages") (S (length (pending w0))) VNone [] 0%nat w0)
    as (events' & _ & Hhdr & _).
  cbv zeta in Hl, Hhdr. split; [by rewrite Hhdr|].
  intros l [d Hd].
  assert (Hne : l ≠ params) by (intros ->; by rewrite Hfresh in Hd).
  by rewrite Hl, Hother.
Qed.

(** X11.  [channel_history] on pages that arrive behind fewer than
    [MAX_RETRIES] rate limits each: it returns the [messages] of all the
    pages, in order, and leaves what lies behind the last page pending. *)
Theorem channel_history_complete channel_id oldest latest w ds final rest :
  pending w = delivered (ds ++ [final]) ++ rest →
  forallb (well_delivered (Some "messages")) (ds ++ [final]) = true →
  forallb has_cursor (map page ds) = true →
  page_cursor (page final) = VNone →
  ∃ w',
    channel_history channel_id oldest latest w
    = (Return (yields (Some "messages") (map page (ds ++ [final]))), w') ∧
    pending w' = rest ∧
    map snd (exchanges (trace w'))
    = map snd (exchanges (trace w)) ++ map Some (delivered (ds ++ [final])).
Proof.
  intros Hp Hw Hc Hlast.
  destruct (channel_history_unfold channel_id oldest latest w)
    as (Heq & _ & _ & Htr0 & Hp0 & _ & _).
  cbv zeta in *. rewrite Heq. rewrite <- Hp0 in Hp.
  destruct (paginated_get_deliveries
              "https://slack.com/api/conversations.history"
              (fresh (dom (heap w))) (Some "messages") _ ds final rest
              Hp Hw Hc Hlast)
    as (w' & events & Hrun & Hrest & Htr & Hex & _ & _).
  exists w'. split; [done|]. split; [done|].
  by rewrite Htr, Htr0, exchanges_app, map_app, Hex.
Qed.

(** A history of two pages, the second behind a rate limit. *)
Lemma channel_history_complete_example :
  let d1 := mkDelivery []
              (json_response 200 (history_page [VStr "m1"] (VStr "c1"))) in
  let d2 := mkDelivery [rate_limit_response "1"]
              (json_response 200 (history_page [VStr "m2"] VNone)) in
  fst (channel_history (VStr "C024BE91L") VNone VNone
         (sample_world (delivered [d1; d2])))
  = Return [VStr "m1"; VStr "m2"].
Proof.
  intros d1 d2.
  destruct (channel_history_complete (VStr "C024BE91L") VNone VNone
              (sample_world (delivered [d1; d2])) [d1] d2 []
              eq_refl eq_refl eq_refl eq_refl)
    as (w' & Hrun & _).
  by rewrite Hrun.
Defined.

(** X12.  With the header built from the environment at module start,
    every request of [channel_history] goes to the conversations.history
    endpoint and carries [Authorization: Bearer] followed by the token. *)
Theorem channel_history_credential environ channel_id oldest latest w :
  init_HEADERS environ = Return (HEADERS w) →
  ∃ token events,
    environ !! "SLACK_USER_TOKEN" = Some token ∧
    trace (snd (channel_history channel_id oldest latest w))
    = trace w ++ events ∧
    length (targets events) = length (exchanges events) ∧
    ∀ i t,
      targets events !! i = Some t →
      t = ("https://slack.com/api/conversations.history",
           {[ "Authorization" := "Bearer " +:+ token ]}).
Proof.
  unfold init_HEADERS.
  destruct (environ !! "SLACK_USER_TOKEN") as [token|]; [|done].
  intros [= Hh].
  destruct (channel_history_unfold channel_id oldest latest w)
    as (Heq & _ & _ & Htr0 & _ & Hhdr0 & _).
  cbv zeta in *. rewrite Heq. unfold paginated_get.
  set (params := fresh (dom (heap w))) in *.
  set (w0 := set_heap _ w) in *.
  destruct (paginated_get_loop_targets
              "https://slack.com/api/conversations.history" params
              (Some "messages") (S (length (pending w0))) VNone [] 0%nat w0)
    as (events & Htr & _ & Hfa & _).
  cbv zeta in Htr. rewrite Hhdr0, <- Hh in Hfa.
  exists token, events. split; [done|]. split; [by rewrite Htr, Htr0|]. split.
  - clear. unfold targets, exchanges.
    induction events as [|[]]; simpl; auto.
  - intros i t Hi. by apply (Forall_lookup_1 _ _ _ _ Hfa Hi).
Qed.

(** The sample world holds the header for the token [xoxp-test]. *)
Lemma channel_history_credential_example :
  ∃ token events,
    ({[ "SLACK_USER_TOKEN" := "xoxp-test" ]} : gmap string string)
      !! "SLACK_USER_TOKEN" = Some token ∧
    trace (snd (channel_history (VStr "C024BE91L") VNone VNone
                  (sample_world [])))
    = trace (sample_world []) ++ events ∧
    length (targets events) = length (exchanges events) ∧
    ∀ i t,
      targets events !! i = Some t →
      t = ("https://slack.com/api/conversations.history",
           {[ "Authorization" := "Bearer " +:+ token ]}).
Proof.
  exact (channel_history_credential {[ "SLACK_USER_TOKEN" := "xoxp-test" ]}
           (VStr "C024BE91L") VNone VNone (sample_world []) eq_refl).
Defined.

(** X13.  The main block sends nothing unless both the channel id and
    the output directory are given and non-empty: without either it
    exits with code 1 in the world it found, and with both it sends at
    least one request. *)
Theorem main_fetch_checks_arguments ch o fr to w :
  (truthy ch && truthy o = false →
   main_fetch ch o fr to w = (Exit 1, w)) ∧
  (trace (snd (main_fetch ch o fr to w)) = trace w ↔
   truthy ch && truthy o = false).
Proof.
  assert (Hexit : truthy ch && truthy o = false →
                  main_fetch ch o fr to w = (Exit 1, w)).
  { unfold main_fetch. by destruct (truthy ch), (truthy o). }
  split; [done|]. split.
  - intros Htr. destruct (truthy ch && truthy o) eqn:Hboth; [|done].
    apply andb_prop in Hboth as [Hch Ho].
    unfold main_fetch in Htr. rewrite Hch, Ho in Htr. simpl in Htr.
    destruct (channel_history_unfold (arg_value ch) (arg_value fr)
                (arg_value to) w) as (Heq & _ & _ & Htr0 & _).
    cbv zeta in *. rewrite Heq in Htr. unfold paginated_get in Htr.
    match type of Htr with
    | context [paginated_get_loop ?f ?u ?p ?k VNone [] 0%nat ?w0] =>
        destruct (paginated_get_loop_targets u p k f VNone [] 0%nat w0)
          as (events & Htr1 & _ & _ & Hne)
    end.
    cbv zeta in Htr1. rewrite Htr1, Htr0 in Htr.
    rewrite <- (app_nil_r (trace w)) in Htr at 2.
    apply app_inv_head in Htr. subst events.
    exfalso. apply Hne; [lia|done].
  - intros Hboth. by rewrite (Hexit Hboth).
Qed.

(** ** The text export *)

Lemma replace_newlines_length text :
  String.length (replace_newlines text) = String.length text.
Proof. induction text as [|c text IH]; simpl; by f_equal. Qed.

Lemma replace_newlines_clean text :
  newline ∉ list_ascii_of_string (replace_newlines text).
Proof.
  induction text as [|c text IH]; simpl; [by intros ?%elem_of_nil|].
  intros [Hc|Hin]%elem_of_cons; [|done].
  destruct (Ascii.eqb_spec c newline) as [->|Hne]; [done|]. by subst.
Qed.

Lemma write_text_written format_ts ch_hist :
  ∀ written,
  write_text format_ts ch_hist written
  = (fst (write_text format_ts ch_hist []),
     written ++ snd (write_text format_ts ch_hist [])).
Proof.
  induction ch_hist as [|msg rest IH]; intros written; simpl.
  - by rewrite app_nil_r.
  - destruct (text_entry format_ts msg) as [[entry|]| | |];
      rewrite ?app_nil_r; try done.
    rewrite (IH (written ++ [entry])), (IH [entry]). simpl.
    by rewrite <- app_assoc.
Qed.

(** X14.  When the text export goes through, the file holds one entry
    for each message that is a dict of type [message] with a [text], in
    the order of the history, and nothing for any other message.  Each
    entry is the formatted time in brackets, a space, the text and two
    newlines, where the text is as long as the message's and has no
    newline left in it. *)
Theorem write_text_entries format_ts ch_hist written :
  write_text format_ts ch_hist [] = (Return tt, written) →
  Forall2
    (λ msg entry,
       ∃ entries ts timestamp text,
         msg = VDict entries ∧
         dict_lookup entries "ts" = Some ts ∧
         format_ts ts = Return timestamp ∧
         dict_lookup entries "text" = Some (VStr text) ∧
         entry = "[" +:+ timestamp +:+ "] " +:+ replace_newlines text
                 +:+ String newline (String newline "") ∧
         String.length (replace_newlines text) = String.length text ∧
         newline ∉ list_ascii_of_string (replace_newlines text))
    (List.filter exported ch_hist) written.
Proof.
  revert written. induction ch_hist as [|msg rest IH]; intros written; simpl.
  - intros [= <-]. constructor.
  - rewrite write_text_written.
    destruct (text_entry format_ts msg) as [[entry|]| | |] eqn:Hmsg;
      try done; unfold text_entry in Hmsg;
      destruct msg as [| | | | | |entries]; try done; unfold exported;
      destruct (is_str "message" (dict_get entries (Some "type") VNone)
                && bool_decide (is_Some (dict_lookup entries "text")));
      try done.
    + destruct (dict_lookup entries "ts") as [ts|] eqn:Hts; [|done].
      destruct (format_ts ts) as [timestamp| | |] eqn:Hfmt; try done.
      destruct (dict_lookup entries "text") as [[| | | |text| |]|] eqn:Htext;
        try done.
      injection Hmsg as <-. rewrite write_text_written. simpl.
      destruct (write_text format_ts rest []) as [o out] eqn:Hrest.
      simpl. intros [= -> <-]. constructor; [|by apply IH].
      exists entries, ts, timestamp, text.
      repeat split; try done.
      * apply replace_newlines_length.
      * apply replace_newlines_clean.
    + destruct (dict_lookup entries "ts") as [ts|]; [|done].
      destruct (format_ts ts) as [timestamp| | |]; try done.
      by destruct (dict_lookup entries "text") as [[| | | |text| |]|].
    + simpl. intros Hrest. apply IH.
      destruct (write_text format_ts rest []) as [o out]. simpl in *.
      by injection Hrest as -> ->.
Qed.

(** A join notice is skipped; a newline in a text becomes a space. *)
Lemma write_text_entries_example :
  let format_ts := λ _ : value, Return "2024-01-01 00:00:00" in
  let ch_hist :=
    [VDict [("type", VStr "channel_join"); ("ts", VStr "1.0")];
     VDict [("type", VStr "message"); ("ts", VStr "2.0");
            ("text", VStr (String "a" (String newline "b")))]] in
  Forall2
    (λ msg entry,
       ∃ entries ts timestamp text,
         msg = VDict entries ∧
         dict_lookup entries "ts" = Some ts ∧
         format_ts ts = Return timestamp ∧
         dict_lookup entries "text" = Some (VStr text) ∧
         entry = "[" +:+ timestamp +:+ "] " +:+ replace_newlines text
                 +:+ String newline (String newline "") ∧
         String.length (replace_newlines text) = String.length text ∧
         newline ∉ list_ascii_of_string (replace_newlines text))
    (List.filter exported ch_hist)
    ["[2024-01-01 00:00:00] a b" +:+ String newline (String newline "")].
Proof.
  intros format_ts ch_hist.
  exact (write_text_entries format_ts ch_hist _ eq_refl).
Defined.

Lemma write_text_app format_ts good rest written :
  write_text format_ts good [] = (Return tt, written) →
  write_text format_ts (good ++ rest) []
  = (fst (write_text format_ts rest []),
     written ++ snd (write_text format_ts rest [])).
Proof.
  revert written. induction good as [|msg good IH]; intros written; simpl.
  - intros [= <-]. by destruct (write_text format_ts rest []).
  - destruct (text_entry format_ts msg) as [[entry|]| | |]; try done.
    + rewrite write_text_written.
      rewrite (write_text_written _ (good ++ rest)).
      destruct (write_text format_ts good []) as [o out] eqn:Hgood.
      simpl. intros [= -> <-]. rewrite (IH out eq_refl). simpl.
      by rewrite ?app_assoc.
    + apply IH.
Qed.

(** X15.  A message of type [message] with a [text] but without [ts]
    stops the text export with [KeyError]: the entries of the messages
    before it are in the file already, those of the messages after it
    never get there. *)
Theorem write_text_missing_ts format_ts good entries rest written :
  write_text format_ts good [] = (Return tt, written) →
  exported (VDict entries) = true →
  dict_lookup entries "ts" = None →
  write_text format_ts (good ++ VDict entries :: rest) []
  = (Raise KeyError, written).
Proof.
  intros Hgood Hexp Hts.
  rewrite (write_text_app _ _ _ _ Hgood). cbn [write_text].
  unfold text_entry. unfold exported in Hexp. rewrite Hexp, Hts. cbn.
  by rewrite app_nil_r.
Qed.

(** An entry is written, then a message without [ts] is met. *)
Lemma write_text_missing_ts_example :
  let format_ts := λ _ : value, Return "2024-01-01 00:00:00" in
  write_text format_ts
    [VDict [("type", VStr "message"); ("ts", VStr "2.0"); ("text", VStr "a")];
     VDict [("type", VStr "message"); ("text", VStr "b")];
     VDict [("type", VStr "message"); ("ts", VStr "3.0"); ("text", VStr "c")]]
    []
  = (Raise KeyError,
     ["[2024-01-01 00:00:00] a" +:+ String newline (String newline "")]).
Proof.
  intros format_ts.
  exact (write_text_missing_ts format_ts
           [VDict [("type", VStr "message"); ("ts", VStr "2.0");
                   ("text", VStr "a")]]
           [("type", VStr "message"); ("text", VStr "b")]
           [VDict [("type", VStr "message"); ("ts", VStr "3.0");
                   ("text", VStr "c")]]
           _ eq_refl eq_refl eq_refl).
Defined.
